(** * Auditly: tenant-scoped user service, request gates and cache headers

    A shallow embedding of
      - [src/services/user.service.ts]   (class [UserService]),
      - [src/middleware/authMiddleware]  ([requireAuth], [requireRole]),
      - [src/middleware/cacheMiddleware] ([cache]),
      - the users router                 (the table of route chains),
    followed by the properties of the design document that concern them.

    The persistence client (Prisma), the token library (jsonwebtoken) and
    the web framework (Express) are libraries the program calls.  The table
    of users is modelled as a list of rows in the store's natural order,
    the token library as a function handed to the gate, and the framework
    as the dispatch loop over a chain of handlers. *)

From stdpp Require Import gmap strings list fin_maps pretty.
From Stdlib Require Import ZArith Lia Ascii.

Open Scope Z_scope.

(** ** Data model *)

(** [export type UserRole = "OWNER" | "ADMIN" | "USER"] *)
Inductive UserRole := OWNER | ADMIN | USER.

#[global] Instance UserRole_eq_dec : EqDecision UserRole.
Proof. solve_decision. Defined.

(** The role type of the two writing operations: [role: "ADMIN" | "USER"]. *)
Inductive AssignableRole := AsADMIN | AsUSER.

Definition role_of (a : AssignableRole) : UserRole :=
  match a with AsADMIN => ADMIN | AsUSER => USER end.

(** [ErrorCode] members used by the gates. *)
Inductive ErrorCode := UNAUTHORIZED | INVALID_TOKEN | FORBIDDEN.

(** [new AppError(message, statusCode, code?)] *)
Record AppError := mkAppError {
  message : string;
  statusCode : Z;
  code : option ErrorCode;
}.

(** What an awaited call can throw: an [AppError] of the program, or an
    error raised by the persistence client itself. *)
Inductive Thrown :=
| ThrownApp (e : AppError)
| ThrownClient (msg : string).

(** The settlement of a promise. *)
Inductive Outcome (A : Type) :=
| Resolved (a : A)
| Rejected (t : Thrown).
Arguments Resolved {A} a.
Arguments Rejected {A} t.

(** A row of the [user] table. *)
Module User.
Record t := mk {
  id : string;
  name : string;
  email : string;
  password : string;
  role : UserRole;
  companyId : string;
  createdAt : Z;
  updatedAt : Z;
}.
End User.

(** The table, in the store's natural order.  Integrity constraints are
    declared in the schema file, which is not among the sources; the table
    here carries none, so the statements about written rows below are about
    writes the store accepts. *)
Abbreviation Store := (list User.t).

(** Values of the columns, and a row seen as an object: column name to value. *)
Inductive Value :=
| VStr (s : string)
| VRole (r : UserRole)
| VDate (z : Z).

Abbreviation Obj := (gmap string Value).

Definition row_obj (u : User.t) : Obj :=
  list_to_map
    [ ("id", VStr (User.id u));
      ("name", VStr (User.name u));
      ("email", VStr (User.email u));
      ("password", VStr (User.password u));
      ("role", VRole (User.role u));
      ("companyId", VStr (User.companyId u));
      ("createdAt", VDate (User.createdAt u));
      ("updatedAt", VDate (User.updatedAt u)) ]%string.

(** ** The persistence client on the [user] model *)

(** [where: { id?, companyId? }]: a key that is absent does not filter. *)
Record UserWhere := mkWhere {
  w_id : option string;
  w_companyId : option string;
}.

Definition field_matches (f : option string) (v : string) : bool :=
  match f with
  | Some x => bool_decide (v = x)
  | None => true
  end.

Definition matches (w : UserWhere) (u : User.t) : bool :=
  field_matches (w_id w) (User.id u) && field_matches (w_companyId w) (User.companyId u).

(** [select: { f: true, ... }]: the listed columns of a row. *)
Definition select_fields (sel : list string) (u : User.t) : Obj :=
  filter (λ kv, kv.1 ∈ sel) (row_obj u).

Record FindManyArgs := mkFindMany {
  fm_where : UserWhere;
  fm_take : Z;
  fm_skip : Z;
  fm_select : list string;
}.

Record FindFirstArgs := mkFindFirst {
  ff_where : UserWhere;
  ff_select : list string;
}.

(** [data] of [updateMany]: [Partial<{ name; email; role }>]. *)
Record UpdateData := mkUpdateData {
  d_name : option string;
  d_email : option string;
  d_role : option AssignableRole;
}.

Record UpdateManyArgs := mkUpdateMany {
  um_where : UserWhere;
  um_data : UpdateData;
}.

Record DeleteManyArgs := mkDeleteMany {
  dm_where : UserWhere;
}.

(** [data] of [create]. *)
Record CreateData := mkCreateData {
  c_name : string;
  c_email : string;
  c_password : string;
  c_role : option AssignableRole;
  c_companyId : string;
}.

Record CreateArgs := mkCreate {
  cr_data : CreateData;
  cr_select : list string;
}.

(** [{ count }], the result of the batch writes. *)
Record BatchPayload := mkBatch { count : nat }.

(** What the store supplies for a new row: its identifier, the clock, and
    the place the row takes in the order the store lists its rows in (the
    program asks for no order, so the place is the store's to choose). *)
Record Fresh := mkFresh {
  fresh_id : string;
  fresh_now : Z;
  fresh_slot : nat;
}.

(** A list with one more element at a given place; past the end, last. *)
Definition place {A} (n : nat) (x : A) (l : list A) : list A :=
  take n l ++ x :: drop n l.

(** The window of [findMany]: the client refuses a negative [skip]; a
    negative [take] counts from the end of the list. *)
Definition window {A} (take_ skip_ : Z) (rows : list A) : list A :=
  if 0 <=? take_
  then take (Z.to_nat take_) (drop (Z.to_nat skip_) rows)
  else reverse (take (Z.to_nat (- take_)) (drop (Z.to_nat skip_) (reverse rows))).

Definition findMany (db : Store) (a : FindManyArgs) : Outcome (list Obj) :=
  if fm_skip a <? 0
  then Rejected (ThrownClient "Invalid value for skip argument")
  else Resolved
         (select_fields (fm_select a)
            <$> window (fm_take a) (fm_skip a) (filter (λ u, matches (fm_where a) u) db)).

Definition findFirst (db : Store) (a : FindFirstArgs) : option Obj :=
  select_fields (ff_select a) <$> head (filter (λ u, matches (ff_where a) u) db).

Definition apply_data (d : UpdateData) (u : User.t) : User.t :=
  User.mk (User.id u)
          (default (User.name u) (d_name d))
          (default (User.email u) (d_email d))
          (User.password u)
          (default (User.role u) (role_of <$> d_role d))
          (User.companyId u)
          (User.createdAt u)
          (User.updatedAt u).

Definition updateMany (db : Store) (a : UpdateManyArgs) : BatchPayload * Store :=
  (mkBatch (length (filter (λ u, matches (um_where a) u) db)),
   (λ u, if matches (um_where a) u then apply_data (um_data a) u else u) <$> db).

Definition deleteMany (db : Store) (a : DeleteManyArgs) : BatchPayload * Store :=
  (mkBatch (length (filter (λ u, matches (dm_where a) u) db)),
   filter (λ u, ¬ matches (dm_where a) u) db).

(** Modelled from the spec: the default of the [role] column.  It is
    declared in the schema file, which is not among the sources; the design
    document says "role defaults to USER if omitted". *)
Definition schema_default_role : UserRole := USER.

Definition new_row (fr : Fresh) (d : CreateData) : User.t :=
  User.mk (fresh_id fr)
          (c_name d)
          (c_email d)
          (c_password d)
          (default schema_default_role (role_of <$> c_role d))
          (c_companyId d)
          (fresh_now fr)
          (fresh_now fr).

Definition create (fr : Fresh) (db : Store) (a : CreateArgs) : Obj * Store :=
  (select_fields (cr_select a) (new_row fr (cr_data a)),
   place (fresh_slot fr) (new_row fr (cr_data a)) db).

(** ** [class UserService] *)

(** The [select] every reading method and [createUser] pass. *)
Definition public_select : list string :=
  ["id"; "name"; "email"; "role"; "createdAt"; "updatedAt"]%string.

Module UserService.

Definition getAllUsers_query (companyId : string) (page limit : Z) : FindManyArgs :=
  let skip := (page - 1) * limit in
  mkFindMany (mkWhere None (Some companyId)) limit skip public_select.

(** [async getAllUsers(companyId, page = 1, limit = 10)] *)
Definition getAllUsers (companyId : string) (page limit : option Z) (db : Store)
  : Outcome (list Obj) :=
  findMany db (getAllUsers_query companyId (default 1 page) (default 10 limit)).

Definition getUserById_query (companyId id : string) : FindFirstArgs :=
  mkFindFirst (mkWhere (Some id) (Some companyId)) public_select.

(** [async getUserById(companyId, id)] *)
Definition getUserById (companyId id : string) (db : Store) : Outcome Obj :=
  match findFirst db (getUserById_query companyId id) with
  | None => Rejected (ThrownApp (mkAppError "User not found" 404 None))
  | Some user => Resolved user
  end.

Definition updateUser_query (companyId id : string) (data : UpdateData) : UpdateManyArgs :=
  mkUpdateMany (mkWhere (Some id) (Some companyId)) data.

(** [async updateUser(companyId, id, data)] *)
Definition updateUser (companyId id : string) (data : UpdateData) (db : Store)
  : Outcome BatchPayload * Store :=
  let '(result, db') := updateMany db (updateUser_query companyId id data) in
  (Resolved result, db').

Definition deleteUser_query (companyId id : string) : DeleteManyArgs :=
  mkDeleteMany (mkWhere (Some id) (Some companyId)).

(** [async deleteUser(companyId, id)] *)
Definition deleteUser (companyId id : string) (db : Store) : Outcome unit * Store :=
  let '(result, db') := deleteMany db (deleteUser_query companyId id) in
  if bool_decide (count result = 0%nat)
  then (Rejected (ThrownApp (mkAppError "User not found" 404 None)), db')
  else (Resolved tt, db').

Definition createUser_query (data : CreateData) : CreateArgs :=
  mkCreate data public_select.

(** [async createUser(data)] *)
Definition createUser (fr : Fresh) (data : CreateData) (db : Store)
  : Outcome Obj * Store :=
  let '(user, db') := create fr db (createUser_query data) in
  (Resolved user, db').

End UserService.

(** ** Requests, responses and the framework's dispatch *)

(** [interface JwtPayload] *)
Record JwtPayload := mkPayload {
  userId : string;
  companyId : string;
  role : UserRole;
}.

(** The parts of an Express request the program reads or writes. *)
Record Request := mkRequest {
  method : string;
  path : list string;
  authorization : option string;
  params : gmap string string;
  body : gmap string string;
  user : option JwtPayload;
}.

Record Response := mkResponse {
  res_headers : gmap string string;
  res_status : option Z;
}.

(** A record handed to [logger.warn]. *)
Inductive LogValue :=
| LStr (s : string)
| LRole (r : UserRole)
| LRoles (rs : list UserRole).

Abbreviation LogRecord := (list (string * LogValue)).

(** Everything a handler can read or change. *)
Record World := mkWorld {
  req : Request;
  res : Response;
  warnings : list LogRecord;
  db : Store;
}.

Definition with_user (w : World) (p : JwtPayload) : World :=
  let r := req w in
  mkWorld (mkRequest (method r) (path r) (authorization r) (params r) (body r) (Some p))
          (res w) (warnings w) (db w).

Definition with_params (w : World) (ps : gmap string string) : World :=
  let r := req w in
  mkWorld (mkRequest (method r) (path r) (authorization r) ps (body r) (user r))
          (res w) (warnings w) (db w).

(** [res.set(field, value)] *)
Definition res_set (w : World) (field value : string) : World :=
  mkWorld (req w)
          (mkResponse (<[field := value]> (res_headers (res w))) (res_status (res w)))
          (warnings w) (db w).

(** [logger.warn(record)] *)
Definition logger_warn (w : World) (r : LogRecord) : World :=
  mkWorld (req w) (res w) (warnings w ++ [r]) (db w).

(** How a handler hands over: [next()], [next(err)], or neither (it has
    answered the request itself). *)
Inductive Signal :=
| Next
| NextErr (e : AppError)
| Answered.

Record Handler := mkHandler {
  h_name : string;
  h_run : World → World * Signal;
}.

(** How the dispatch of a chain ends: a handler answered, an error reached
    the error handler, or the chain ran out. *)
Inductive Ending :=
| Finished
| Failed (e : AppError)
| Unhandled.

Record Run := mkRun {
  trace : list string;
  final : World;
  ending : Ending;
}.

(** The framework calls the handlers of a chain in order; [next(err)]
    skips all that remain. *)
Fixpoint dispatch (chain : list Handler) (w : World) : Run :=
  match chain with
  | [] => mkRun [] w Unhandled
  | h :: rest =>
      match h_run h w with
      | (w', Next) =>
          let r := dispatch rest w' in
          mkRun (h_name h :: trace r) (final r) (ending r)
      | (w', NextErr e) => mkRun [h_name h] w' (Failed e)
      | (w', Answered) => mkRun [h_name h] w' Finished
      end
  end.

(** ** Strings as the gates use them *)

(** [s.split(sep)] for a one-character separator. *)
Fixpoint split_on (sep : ascii) (s : string) : list string :=
  match s with
  | EmptyString => [EmptyString]
  | String c rest =>
      if Ascii.eqb c sep
      then EmptyString :: split_on sep rest
      else match split_on sep rest with
           | [] => [String c EmptyString]
           | w :: ws => String c w :: ws
           end
  end.

(** [authHeader?.startsWith("Bearer ") ? authHeader.split(" ")[1] : null] *)
Definition bearer_token (authHeader : option string) : option string :=
  match authHeader with
  | Some h => if String.prefix "Bearer " h then split_on " " h !! 1%nat else None
  | None => None
  end.

(** [!token] for a string that may be null or undefined. *)
Definition no_token (token : option string) : bool :=
  match token with
  | None => true
  | Some t => bool_decide (t = EmptyString)
  end.

(** [ENV] *)
Record Env := mkEnv {
  NODE_ENV : string;
  JWT_SECRET : string;
}.

(** [interface CacheOptions] *)
Record CacheOptions := mkCacheOptions {
  duration : option Z;
}.

(** ** The middleware *)

Section Middleware.

Variable ENV : Env.

(** [jwt.verify(token, secret)]: the decoded payload, or the message of
    the error it throws. *)
Variable jwt_verify : string → string → string + JwtPayload.

(** The body of the [try] block of [requireAuth] up to [next()]: the
    payload to attach, or the message of what was thrown. *)
Definition authenticate (r : Request) : string + JwtPayload :=
  let token := bearer_token (authorization r) in
  if no_token token
  then inl "No token provided"%string
  else match jwt_verify (default EmptyString token) (JWT_SECRET ENV) with
       | inl msg => inl msg
       | inr decoded =>
           inr (mkPayload (userId decoded) (companyId decoded) (role decoded))
       end.

Definition requireAuth (w : World) : World * Signal :=
  match authenticate (req w) with
  | inr payload => (with_user w payload, Next)
  | inl msg =>
      (logger_warn w
         [ ("message", LStr "Authentication failed");
           ("context", LStr "AuthMiddleware.requireAuth");
           ("error", LStr msg) ]%string,
       NextErr (mkAppError "Unauthorized - Invalid or expired token" 401
                           (Some INVALID_TOKEN)))
  end.

Definition requireRole (roles : list UserRole) (w : World) : World * Signal :=
  match user (req w) with
  | None => (w, NextErr (mkAppError "Unauthorized" 401 (Some UNAUTHORIZED)))
  | Some u =>
      if bool_decide (role u ∈ roles)
      then (w, Next)
      else
        (logger_warn w
           [ ("message", LStr "Insufficient permissions");
             ("context", LStr "AuthMiddleware.requireRole");
             ("requiredRoles", LRoles roles);
             ("userRole", LRole (role u));
             ("userId", LStr (userId u));
             ("companyId", LStr (companyId u)) ]%string,
         NextErr (mkAppError "Forbidden - Insufficient permissions" 403
                             (Some FORBIDDEN)))
  end.

Definition cache (options : CacheOptions) (w : World) : World * Signal :=
  let duration := default 300 (duration options) in
  if negb (String.eqb (method (req w)) "GET")
  then (res_set w "Cache-Control" "no-store", Next)
  else if negb (String.eqb (NODE_ENV ENV) "production")
  then (res_set w "Cache-Control" "no-store", Next)
  else
    (res_set (res_set w "Cache-Control" ("private, max-age=" +:+ pretty duration))
             "Vary" "Authorization",
     Next).

(** ** The users router *)

(** The controller and the request validator are not among the sources;
    the router only places them in its chains. *)
Variable Schema : Type.
Variables createUserSchema updateUserSchema : Schema.
Variable validateRequest : Schema → World → World * Signal.
Variables getAll getUser create_ update delete_ : World → World * Signal.

Definition h_requireAuth : Handler := mkHandler "requireAuth" requireAuth.
Definition h_requireRole (roles : list UserRole) : Handler :=
  mkHandler "requireRole" (requireRole roles).
Definition h_cache (o : CacheOptions) : Handler := mkHandler "cache" (cache o).
Definition h_validateRequest (s : Schema) : Handler :=
  mkHandler "validateRequest" (validateRequest s).

(** The route table: the path parameters of the matching route and its
    chain.  A path is given by its segments below the mount point. *)
Definition route (r : Request) : option (gmap string string * list Handler) :=
  match path r with
  | [] =>
      if String.eqb (method r) "GET" then
        Some (∅, [ h_requireRole [ADMIN; OWNER];
                   h_cache (mkCacheOptions (Some 300));
                   mkHandler "userController.getAll" getAll ])
      else if String.eqb (method r) "POST" then
        Some (∅, [ h_requireRole [ADMIN; OWNER];
                   h_validateRequest createUserSchema;
                   mkHandler "userController.create" create_ ])
      else None
  | [i] =>
      if String.eqb (method r) "GET" then
        Some ({[ "id"%string := i ]},
              [ h_cache (mkCacheOptions (Some 300));
                mkHandler "userController.getUser" getUser ])
      else if String.eqb (method r) "PATCH" then
        Some ({[ "id"%string := i ]},
              [ h_requireRole [ADMIN; OWNER];
                h_validateRequest updateUserSchema;
                mkHandler "userController.update" update ])
      else if String.eqb (method r) "DELETE" then
        Some ({[ "id"%string := i ]},
              [ h_requireRole [OWNER];
                mkHandler "userController.delete" delete_ ])
      else None
  | _ => None
  end.

(** [router.use(requireAuth)] runs before every route; the path
    parameters, which [requireAuth] does not read, are in place from the
    start. *)
Definition users_router (w : World) : Run :=
  match route (req w) with
  | Some (ps, chain) => dispatch (h_requireAuth :: chain) (with_params w ps)
  | None => dispatch [h_requireAuth] w
  end.

End Middleware.

(** ** Sequences of service calls *)

(** One call of a method of [UserService]. *)
Inductive Op :=
| GetAllUsers (companyId : string) (page limit : option Z)
| GetUserById (companyId id : string)
| UpdateUser (companyId id : string) (data : UpdateData)
| DeleteUser (companyId id : string)
| CreateUser (fr : Fresh) (data : CreateData).

(** The table after a call; the reading methods issue no write. *)
Definition step (db : Store) (op : Op) : Store :=
  match op with
  | GetAllUsers _ _ _ => db
  | GetUserById _ _ => db
  | UpdateUser c i d => (UserService.updateUser c i d db).2
  | DeleteUser c i => (UserService.deleteUser c i db).2
  | CreateUser fr d => (UserService.createUser fr d db).2
  end.

Definition run_ops (ops : list Op) (db : Store) : Store := foldl step db ops.

(** The OWNER rows of a company. *)
Definition owners (c : string) (db : Store) : Store :=
  filter (λ u, User.role u = OWNER ∧ User.companyId u = c) db.

(** The rows of a company. *)
Definition of_company (c : string) (db : Store) : Store :=
  filter (λ u, User.companyId u = c) db.

(** ** Vocabulary of the design document *)

(** The headers of the Cache Advisory Layer as the design document gives
    them: a function of the method, the environment and the duration. *)
Definition advised_headers (m env : string) (d : Z) : list (string * string) :=
  if bool_decide (m = "GET"%string ∧ env = "production"%string)
  then [ ("Cache-Control", "private, max-age=" +:+ pretty d);
         ("Vary", "Authorization") ]%string
  else [ ("Cache-Control", "no-store") ]%string.

(** Setting a list of headers, first to last. *)
Definition set_headers (hs : list (string * string)) (h : gmap string string)
  : gmap string string :=
  foldl (λ acc kv, <[kv.1 := kv.2]> acc) h hs.

(** The errors of the gates and of the service. *)
Definition invalid_token_error : AppError :=
  mkAppError "Unauthorized - Invalid or expired token" 401 (Some INVALID_TOKEN).

Definition forbidden_error : AppError :=
  mkAppError "Forbidden - Insufficient permissions" 403 (Some FORBIDDEN).

Definition not_found_error : AppError :=
  mkAppError "User not found" 404 None.

(** ** Sample data *)

Module Sample.

Definition o1 : User.t := User.mk "o1" "Olga" "olga@a.com" "h-olga" OWNER "cA" 10 10.
Definition u1 : User.t := User.mk "u1" "Uma" "uma@a.com" "h-uma" USER "cA" 20 20.
Definition b1 : User.t := User.mk "u1" "Bo" "bo@b.com" "h-bo" ADMIN "cB" 30 30.
Definition b2 : User.t := User.mk "b2" "Bea" "bea@b.com" "h-bea" OWNER "cB" 40 40.

(** Two companies; the identifier [u1] occurs in both. *)
Definition table : Store := [o1; b1; u1; b2].

Definition member (c : string) (n : nat) : User.t :=
  User.mk ("m" +:+ pretty n) "Member" ("m" +:+ pretty n +:+ "@x.com") "h" USER c
          (Z.of_nat n) (Z.of_nat n).

(** Fifteen rows of company [cA], with rows of [cB] in between. *)
Definition fifteen : Store :=
  b1 :: (member "cA" <$> seq 1 7) ++ b2 :: (member "cA" <$> seq 8 8).

Definition env : Env := mkEnv "production" "s3cret".

Definition verify (token secret : string) : string + JwtPayload :=
  if bool_decide (secret = "s3cret"%string) then
    if bool_decide (token = "t-u1"%string) then inr (mkPayload "u1" "cA" USER)
    else if bool_decide (token = "t-o1"%string) then inr (mkPayload "o1" "cA" OWNER)
    else inl "jwt malformed"%string
  else inl "invalid signature"%string.

Definition request (m : string) (p : list string) (auth : option string)
           (b : gmap string string) : World :=
  mkWorld (mkRequest m p auth ∅ b None) (mkResponse ∅ None) [] table.

End Sample.

(** ** The audit router and the auth router *)

(** ASCII lower case, as the framework folds the case of a path when it
    looks for a route. *)
Definition lower_ascii (c : ascii) : ascii :=
  let n := nat_of_ascii c in
  if (65 <=? n)%nat && (n <=? 90)%nat then ascii_of_nat (n + 32) else c.

Fixpoint lower (s : string) : string :=
  match s with
  | EmptyString => EmptyString
  | String c rest => String (lower_ascii c) (lower rest)
  end.

Section OtherRouters.

Variable ENV : Env.
Variable jwt_verify : string → string → string + JwtPayload.
Variable Schema : Type.
Variable validateRequest : Schema → World → World * Signal.

(** [router.get("/", requireAuth, controller.getAuditLogs.bind(controller))]:
    the gate is part of the route, not of the router.  The tables list the
    routes under the method they are registered with; a HEAD request, which
    the framework serves through the GET routes, is not in them. *)
Variable getAuditLogs : World → World * Signal.

Definition audit_route (r : Request) : option (gmap string string * list Handler) :=
  match path r with
  | [] =>
      if String.eqb (method r) "GET" then
        Some (∅, [ h_requireAuth ENV jwt_verify;
                   mkHandler "auditController.getAuditLogs" getAuditLogs ])
      else None
  | _ => None
  end.

Definition audit_router (w : World) : Run :=
  match audit_route (req w) with
  | Some (ps, chain) => dispatch chain (with_params w ps)
  | None => mkRun [] w Unhandled
  end.

(** The schemas and the controller of the auth router.  The router is made
    with the framework's defaults, under which the literal segments of a
    route match whatever the case of the letters. *)
Variables loginSchema registerSchema refreshTokenSchema verifyEmailSchema
          forgotPasswordSchema resetPasswordSchema : Schema.
Variables register login refresh me logout verifyEmail forgotPassword resetPassword
  : World → World * Signal.

Definition auth_route (r : Request) : option (gmap string string * list Handler) :=
  let validated (s : Schema) (name : string) (h : World → World * Signal) :=
    [ h_validateRequest Schema validateRequest s; mkHandler name h ] in
  let guarded (name : string) (h : World → World * Signal) :=
    [ h_requireAuth ENV jwt_verify; mkHandler name h ] in
  match path r with
  | [seg] =>
      if String.eqb (method r) "POST" then
        if String.eqb (lower seg) "register" then
          Some (∅, validated registerSchema "authController.register" register)
        else if String.eqb (lower seg) "login" then
          Some (∅, validated loginSchema "authController.login" login)
        else if String.eqb (lower seg) "refresh" then
          Some (∅, validated refreshTokenSchema "authController.refresh" refresh)
        else if String.eqb (lower seg) "logout" then
          Some (∅, guarded "authController.logout" logout)
        else if String.eqb (lower seg) "forgot-password" then
          Some (∅, validated forgotPasswordSchema "authController.forgotPassword"
                             forgotPassword)
        else None
      else if String.eqb (method r) "GET" then
        if String.eqb (lower seg) "me" then Some (∅, guarded "authController.me" me)
        else None
      else None
  | [seg; t] =>
      if String.eqb (method r) "GET" && String.eqb (lower seg) "verify-email" then
        Some ({[ "token"%string := t ]},
              validated verifyEmailSchema "authController.verifyEmail" verifyEmail)
      else if String.eqb (method r) "POST" && String.eqb (lower seg) "reset-password" then
        Some ({[ "token"%string := t ]},
              validated resetPasswordSchema "authController.resetPassword" resetPassword)
      else None
  | _ => None
  end.

Definition auth_router (w : World) : Run :=
  match auth_route (req w) with
  | Some (ps, chain) => dispatch chain (with_params w ps)
  | None => mkRun [] w Unhandled
  end.

End OtherRouters.

(** ** Further vocabulary *)

(** The part of a string before the first occurrence of a character. *)
Fixpoint first_segment (sep : ascii) (s : string) : string :=
  match s with
  | EmptyString => EmptyString
  | String c rest =>
      if Ascii.eqb c sep then EmptyString else String c (first_segment sep rest)
  end.

(** Whether a character occurs in a string. *)
Fixpoint occurs (c : ascii) (s : string) : bool :=
  match s with
  | EmptyString => false
  | String d rest => Ascii.eqb d c || occurs c rest
  end.

(** A header of the form [Bearer <token>]: the scheme, one space, and a
    token that is not empty and has no space in it. *)
Definition bearer_form (h : string) : Prop :=
  ∃ tok : string,
    tok ≠ EmptyString ∧ occurs " " tok = false ∧ h = ("Bearer " +:+ tok)%string.

(** A header that begins with that form: the form itself, or the form
    followed by a space and any text. *)
Definition begins_with_bearer_form (h : string) : Prop :=
  bearer_form h
  ∨ ∃ tok rest : string,
      tok ≠ EmptyString ∧ occurs " " tok = false
      ∧ h = ("Bearer " +:+ tok +:+ " " +:+ rest)%string.

(** The list a listing call hands back; nothing when it is rejected. *)
Definition listed (o : Outcome (list Obj)) : list Obj :=
  match o with
  | Resolved l => l
  | Rejected _ => []
  end.

(** The pages [1 .. n] of [getAllUsers] for a limit, one after the other. *)
Definition pages (companyId : string) (limit : Z) (n : nat) (db : Store) : list Obj :=
  mjoin ((λ k, listed (UserService.getAllUsers companyId (Some (Z.of_nat k + 1))
                                                (Some limit) db))
           <$> seq 0 n).

(** The company a call of the service is scoped to. *)
Definition op_company (op : Op) : string :=
  match op with
  | GetAllUsers c _ _ => c
  | GetUserById c _ => c
  | UpdateUser c _ _ => c
  | DeleteUser c _ => c
  | CreateUser _ d => c_companyId d
  end.

(** The first row of a company that carries an identifier. *)
Definition first_row (companyId id : string) (db : Store) : option User.t :=
  head (filter (λ u, User.id u = id ∧ User.companyId u = companyId) db).

(** A request carries a verified token for an identity: the header yields a
    non-empty token and [jwt.verify] decodes it to that identity. *)
Definition verified (ENV : Env) (jwt_verify : string → string → string + JwtPayload)
           (r : Request) (p : JwtPayload) : Prop :=
  ∃ tok, bearer_token (authorization r) = Some tok
         ∧ tok ≠ EmptyString
         ∧ jwt_verify tok (JWT_SECRET ENV) = inr p.

(** Handlers and a validator to run the routers on. *)
Module Fixture.

Definition answer : World → World * Signal := λ w, (w, Answered).

Definition accept (_ : unit) : World → World * Signal := λ w, (w, Next).

Definition reject (_ : unit) : World → World * Signal :=
  λ w, (w, NextErr (mkAppError "Validation failed" 400 None)).

Definition users (validate : unit → World → World * Signal) (w : World) : Run :=
  users_router Sample.env Sample.verify unit tt tt validate
               answer answer answer answer answer w.

Definition audit (w : World) : Run :=
  audit_router Sample.env Sample.verify answer w.

Definition auth (verify : string → string → string + JwtPayload)
           (validate : unit → World → World * Signal) (w : World) : Run :=
  auth_router Sample.env verify unit validate tt tt tt tt tt tt
              answer answer answer answer answer answer answer answer w.

End Fixture.

(** The requests of the two routes of the auth router that name
    [requireAuth]: [GET /me] and [POST /logout], in any case of the
    letters of the path. *)
Definition auth_protected (r : Request) : Prop :=
  ∃ seg, path r = [seg]
         ∧ ((method r = "GET"%string ∧ lower seg = "me"%string)
            ∨ (method r = "POST"%string ∧ lower seg = "logout"%string)).

(** * Properties *)

(** ** Objects returned by the service *)

Lemma lookup_select_fields (sel : list string) (u : User.t) (k : string) :
  select_fields sel u !! k = if bool_decide (k ∈ sel) then row_obj u !! k else None.
Proof.
  unfold select_fields. case_bool_decide as Hk.
  - destruct (row_obj u !! k) as [v|] eqn:E.
    + apply map_lookup_filter_Some. by split.
    + apply map_lookup_filter_None. left. exact E.
  - apply map_lookup_filter_None. right. intros v _ Hin. by apply Hk.
Qed.

Lemma row_obj_is_Some (u : User.t) (k : string) :
  k ∈ ["id"; "name"; "email"; "password"; "role"; "companyId"; "createdAt"; "updatedAt"]%string →
  is_Some (row_obj u !! k).
Proof.
  intros Hk. repeat (apply elem_of_cons in Hk as [-> | Hk]; [eexists; reflexivity |]).
  by apply elem_of_nil in Hk.
Qed.

(** The columns of a record selected with [public_select]. *)
Lemma public_dom (u : User.t) :
  dom (select_fields public_select u) = list_to_set public_select.
Proof.
  apply set_eq. intros k. rewrite elem_of_dom, lookup_select_fields, elem_of_list_to_set.
  case_bool_decide as Hk; split; intros H; try done.
  apply row_obj_is_Some. unfold public_select in Hk.
  repeat (apply elem_of_cons in Hk as [-> | Hk]; [by repeat constructor |]).
  by apply elem_of_nil in Hk.
Qed.

Lemma public_no_password (u : User.t) :
  select_fields public_select u !! "password"%string = None.
Proof. rewrite lookup_select_fields. reflexivity. Qed.

Lemma public_no_companyId (u : User.t) :
  select_fields public_select u !! "companyId"%string = None.
Proof. rewrite lookup_select_fields. reflexivity. Qed.

Lemma public_role (u : User.t) :
  select_fields public_select u !! "role"%string = Some (VRole (User.role u)).
Proof. rewrite lookup_select_fields. reflexivity. Qed.

Lemma public_id (u : User.t) :
  select_fields public_select u !! "id"%string = Some (VStr (User.id u)).
Proof. rewrite lookup_select_fields. reflexivity. Qed.

(** From here on a selected record is used through the lemmas above. *)
#[global] Opaque select_fields.

(** ** Filters *)

Lemma matches_company (c : string) (u : User.t) :
  matches (mkWhere None (Some c)) u ↔ User.companyId u = c.
Proof.
  unfold matches, field_matches; simpl. by rewrite bool_decide_spec.
Qed.

Lemma matches_id_company (i c : string) (u : User.t) :
  matches (mkWhere (Some i) (Some c)) u ↔ User.id u = i ∧ User.companyId u = c.
Proof.
  unfold matches, field_matches; simpl.
  by rewrite andb_True, !bool_decide_spec.
Qed.

Lemma filter_company (c : string) (db : Store) :
  filter (λ u, matches (mkWhere None (Some c)) u) db
  = filter (λ u, User.companyId u = c) db.
Proof. apply list_filter_iff. intros u. apply matches_company. Qed.

Lemma filter_none {A} (P : A → Prop) `{!∀ x, Decision (P x)} (l : list A) :
  (∀ x, x ∈ l → ¬ P x) → filter P l = [].
Proof.
  induction l as [|x l IH]; intros Hl; [done |].
  rewrite filter_cons_False by (apply Hl; left).
  apply IH. intros y Hy. apply Hl. by right.
Qed.

(** ** Reading one user *)

Lemma getUserById_found (db : Store) (companyId id : string) (o : Obj) :
  UserService.getUserById companyId id db = Resolved o →
  ∃ u, u ∈ db ∧ User.id u = id ∧ User.companyId u = companyId
       ∧ o = select_fields public_select u.
Proof.
  unfold UserService.getUserById, findFirst.
  cbn [ff_where ff_select UserService.getUserById_query].
  destruct (filter _ db) as [|u rest] eqn:E; cbn [head fmap option_fmap option_map].
  { intros H; discriminate H. }
  intros H. assert (Ho : o = select_fields public_select u) by congruence.
  exists u.
  assert (Hu : u ∈ filter (λ u, matches (mkWhere (Some id) (Some companyId)) u) db)
    by (rewrite E; left).
  apply list_elem_of_filter in Hu as [Hm Hin].
  apply matches_id_company in Hm as [Hi Hc].
  repeat split; assumption.
Qed.

(** C4: [getUserById] on an identifier that no row of the company carries is
    rejected with the 404 "User not found" error, whether or not a row of
    another company carries that identifier; the error is never a 403. *)
Theorem getUserById_not_found (db : Store) (companyId id : string) :
  (∀ u, u ∈ db → User.id u = id → User.companyId u ≠ companyId) →
  UserService.getUserById companyId id db
    = Rejected (ThrownApp (mkAppError "User not found" 404 None))
  ∧ (∀ e, UserService.getUserById companyId id db = Rejected (ThrownApp e) →
          statusCode e = 404 ∧ statusCode e ≠ 403).
Proof.
  intros Hnone.
  assert (E : UserService.getUserById companyId id db
              = Rejected (ThrownApp (mkAppError "User not found" 404 None))).
  { unfold UserService.getUserById, findFirst.
    cbn [ff_where ff_select UserService.getUserById_query].
    rewrite filter_none; [reflexivity |].
    intros u Hu Hm. apply matches_id_company in Hm as [Hi Hc].
    exact (Hnone u Hu Hi Hc). }
  split; [exact E |].
  rewrite E. intros e He.
  assert (Ee : e = mkAppError "User not found" 404 None) by congruence.
  rewrite Ee. cbn [statusCode]. lia.
Qed.

Lemma getUserById_not_found_witness :
  UserService.getUserById "cA" "b2" Sample.table
    = Rejected (ThrownApp (mkAppError "User not found" 404 None))
  ∧ Sample.b2 ∈ Sample.table.
Proof.
  split.
  - apply (getUserById_not_found Sample.table "cA" "b2").
    intros u Hu. unfold Sample.table in Hu.
    repeat (apply elem_of_cons in Hu as [-> | Hu]; [vm_compute; congruence |]).
    by apply elem_of_nil in Hu.
  - unfold Sample.table. repeat constructor.
Defined.

(** ** Listing users *)

Lemma elem_of_window_rows {A} (n m : nat) (l : list A) (x : A) :
  x ∈ take n (drop m l) → x ∈ l.
Proof.
  intros H. apply (subseteq_drop m l). by apply (subseteq_take n (drop m l)).
Qed.

Lemma getAllUsers_window (db : Store) (companyId : string) (page limit : option Z) :
  0 ≤ default 10 limit →
  UserService.getAllUsers companyId page limit db
  = if (default 1 page - 1) * default 10 limit <? 0
    then Rejected (ThrownClient "Invalid value for skip argument")
    else Resolved
           (select_fields public_select
              <$> take (Z.to_nat (default 10 limit))
                       (drop (Z.to_nat ((default 1 page - 1) * default 10 limit))
                             (of_company companyId db))).
Proof.
  intros Hl.
  unfold UserService.getAllUsers, UserService.getAllUsers_query, findMany.
  cbn [fm_where fm_take fm_skip fm_select].
  destruct (_ <? 0); [reflexivity |].
  unfold window.
  assert (Htake : (0 <=? default 10 limit) = true) by (by apply Z.leb_le).
  rewrite Htake, filter_company. reflexivity.
Qed.



(** ** Creating a user *)

(** C9: when [role] is omitted, [createUser] adds a row whose role is USER,
    at the place the store gives it, and resolves to the selection of that
    row: role USER, exactly the six public columns, no password. *)
Theorem createUser_default_role (fr : Fresh) (data : CreateData) (db : Store) :
  c_role data = None →
  let row := new_row fr data in
  let o := select_fields public_select row in
  UserService.createUser fr data db = (Resolved o, place (fresh_slot fr) row db)
  ∧ User.role row = USER
  ∧ User.companyId row = c_companyId data
  ∧ o !! "role"%string = Some (VRole USER)
  ∧ dom o = list_to_set public_select
  ∧ o !! "password"%string = None.
Proof.
  intros Hrole row o.
  assert (Hr : User.role row = USER).
  { subst row. unfold new_row. cbn [User.role]. rewrite Hrole. reflexivity. }
  split; [reflexivity |].
  split; [exact Hr |].
  split; [reflexivity |].
  split; [subst o; rewrite public_role, Hr; reflexivity |].
  split; [apply public_dom | apply public_no_password].
Qed.

Lemma createUser_default_role_witness :
  let bob := mkCreateData "Bob" "bob@x.com" "StrongP@ss1" None "cA" in
  let fr := mkFresh "n1" 50 1 in
  (UserService.createUser fr bob Sample.table).2
    = [ Sample.o1;
        User.mk "n1" "Bob" "bob@x.com" "StrongP@ss1" USER "cA" 50 50;
        Sample.b1; Sample.u1; Sample.b2 ].
Proof.
  intros bob fr.
  destruct (createUser_default_role fr bob Sample.table) as [E _].
  - reflexivity.
  - rewrite E. reflexivity.
Defined.

(** ** Updating and deleting *)

Lemma updateUser_snd (companyId id : string) (data : UpdateData) (db : Store) :
  (UserService.updateUser companyId id data db).2
  = (λ u, if matches (mkWhere (Some id) (Some companyId)) u
          then apply_data data u else u) <$> db.
Proof. reflexivity. Qed.

Lemma deleteUser_snd (companyId id : string) (db : Store) :
  (UserService.deleteUser companyId id db).2
  = filter (λ u, ¬ matches (mkWhere (Some id) (Some companyId)) u) db.
Proof.
  unfold UserService.deleteUser, deleteMany.
  cbn [dm_where UserService.deleteUser_query count].
  by case_bool_decide.
Qed.

(** [updateUser] never rejects: whatever the number of rows it changed, it
    resolves to that number. *)
Lemma updateUser_resolves (companyId id : string) (data : UpdateData) (db : Store) :
  (UserService.updateUser companyId id data db).1
  = Resolved (mkBatch (length (filter
      (λ u, matches (mkWhere (Some id) (Some companyId)) u) db))).
Proof. reflexivity. Qed.

Lemma updateUser_zero_rows (companyId id : string) (data : UpdateData) (db : Store) :
  (∀ u, u ∈ db → User.id u = id → User.companyId u ≠ companyId) →
  UserService.updateUser companyId id data db = (Resolved (mkBatch 0), db).
Proof.
  intros Hnone.
  rewrite (surjective_pairing (UserService.updateUser companyId id data db)).
  rewrite updateUser_resolves, updateUser_snd. f_equal.
  - rewrite filter_none; [reflexivity |].
    intros u Hu Hm. apply matches_id_company in Hm as [Hi Hc].
    exact (Hnone u Hu Hi Hc).
  - induction db as [|u db IH]; [reflexivity |].
    rewrite fmap_cons. f_equal.
    + destruct (matches _ u) eqn:Hm; [| reflexivity].
      exfalso. apply Is_true_true in Hm.
      apply matches_id_company in Hm as [Hi Hc].
      exact (Hnone u (list_elem_of_here u db) Hi Hc).
    + apply IH. intros v Hv. apply Hnone. by right.
Qed.

(** The second half of C3: the rows [updateUser] matches keep every column
    the call does not provide. *)
Lemma apply_data_only_provided (d : UpdateData) (u : User.t) :
  User.id (apply_data d u) = User.id u
  ∧ User.companyId (apply_data d u) = User.companyId u
  ∧ User.password (apply_data d u) = User.password u
  ∧ User.createdAt (apply_data d u) = User.createdAt u
  ∧ User.updatedAt (apply_data d u) = User.updatedAt u
  ∧ User.name (apply_data d u) = default (User.name u) (d_name d)
  ∧ User.email (apply_data d u) = default (User.email u) (d_email d)
  ∧ User.role (apply_data d u) = default (User.role u) (role_of <$> d_role d).
Proof. repeat split. Qed.

(** The sibling method does check the number of rows. *)
Lemma deleteUser_zero_rows (companyId id : string) (db : Store) :
  (∀ u, u ∈ db → User.id u = id → User.companyId u ≠ companyId) →
  UserService.deleteUser companyId id db
  = (Rejected (ThrownApp (mkAppError "User not found" 404 None)), db).
Proof.
  intros Hnone. unfold UserService.deleteUser, deleteMany.
  cbn [dm_where UserService.deleteUser_query count].
  assert (E : filter (λ u, matches (mkWhere (Some id) (Some companyId)) u) db = []).
  { apply filter_none. intros u Hu Hm. apply matches_id_company in Hm as [Hi Hc].
    exact (Hnone u Hu Hi Hc). }
  rewrite E. cbn [length]. rewrite bool_decide_eq_true_2 by reflexivity.
  f_equal. induction db as [|u db IH]; [reflexivity |].
  rewrite filter_cons_True.
  - f_equal. apply IH.
    + intros v Hv. apply Hnone. by right.
    + apply filter_none. intros v Hv Hm.
      assert (Hv' : v ∈ filter (λ u, matches (mkWhere (Some id) (Some companyId)) u) (u :: db)).
      { apply list_elem_of_filter. split; [exact Hm | by right]. }
      rewrite E in Hv'. by apply elem_of_nil in Hv'.
  - intros Hm. apply matches_id_company in Hm as [Hi Hc].
    exact (Hnone u (list_elem_of_here u db) Hi Hc).
Qed.

(** C3: on an identifier that no row of the company carries, [updateUser]
    does not fail with NotFound: it resolves to [{ count: 0 }] and leaves
    the table as it was, where [deleteUser] on the same arguments is
    rejected with the 404 error. *)
Theorem updateUser_no_match_resolves :
  UserService.updateUser "cA" "b2" (mkUpdateData (Some "New Name"%string) None None)
                         Sample.table
    = (Resolved (mkBatch 0), Sample.table)
  ∧ UserService.deleteUser "cA" "b2" Sample.table
    = (Rejected (ThrownApp (mkAppError "User not found" 404 None)), Sample.table).
Proof.
  assert (Hnone : ∀ u, u ∈ Sample.table → User.id u = "b2"%string →
                       User.companyId u ≠ "cA"%string).
  { intros u Hu. unfold Sample.table in Hu.
    repeat (apply elem_of_cons in Hu as [-> | Hu]; [vm_compute; congruence |]).
    by apply elem_of_nil in Hu. }
  split.
  - by apply updateUser_zero_rows.
  - by apply deleteUser_zero_rows.
Qed.

(** ** Tenant isolation *)

Lemma elem_of_window {A} (t s : Z) (l : list A) (x : A) :
  x ∈ window t s l → x ∈ l.
Proof.
  unfold window. destruct (0 <=? t).
  - apply elem_of_window_rows.
  - intros H. rewrite elem_of_reverse in H. apply elem_of_window_rows in H.
    by rewrite elem_of_reverse in H.
Qed.

Lemma updateUser_other_company (C1 C2 id : string) (data : UpdateData) (db : Store) :
  C1 ≠ C2 →
  of_company C2 (UserService.updateUser C1 id data db).2 = of_company C2 db.
Proof.
  intros Hne. rewrite updateUser_snd. unfold of_company.
  induction db as [|u db IH]; [reflexivity |].
  rewrite fmap_cons.
  destruct (matches (mkWhere (Some id) (Some C1)) u) eqn:Hm.
  - apply Is_true_true in Hm. apply matches_id_company in Hm as [Hi Hc].
    rewrite !filter_cons_False; [exact IH | |].
    + rewrite Hc. exact Hne.
    + cbn [apply_data User.companyId]. rewrite Hc. exact Hne.
  - destruct (decide (User.companyId u = C2)) as [Hc | Hc].
    + rewrite !filter_cons_True by exact Hc. by rewrite IH.
    + rewrite !filter_cons_False by exact Hc. exact IH.
Qed.

Lemma deleteUser_other_company (C1 C2 id : string) (db : Store) :
  C1 ≠ C2 →
  of_company C2 (UserService.deleteUser C1 id db).2 = of_company C2 db.
Proof.
  intros Hne. rewrite deleteUser_snd. unfold of_company.
  apply list_filter_filter_l. intros u Hc Hm.
  apply matches_id_company in Hm as [_ Hc']. congruence.
Qed.

(** C1: with the caller's company [C1] and any other company [C2], the
    filter of each query of [getAllUsers], [getUserById], [updateUser] and
    [deleteUser] carries [C1]; every record the two reading methods return
    is the selection of a row of [C1]; and the rows of [C2] are the same,
    in the same order, after [updateUser] and after [deleteUser]. *)
Theorem tenant_isolation (db : Store) (C1 C2 id : string) (page limit : option Z)
        (data : UpdateData) :
  C1 ≠ C2 →
  ( w_companyId (fm_where (UserService.getAllUsers_query C1 (default 1 page)
                                                         (default 10 limit))) = Some C1
    ∧ w_companyId (ff_where (UserService.getUserById_query C1 id)) = Some C1
    ∧ w_companyId (um_where (UserService.updateUser_query C1 id data)) = Some C1
    ∧ w_companyId (dm_where (UserService.deleteUser_query C1 id)) = Some C1 )
  ∧ (∀ objs, UserService.getAllUsers C1 page limit db = Resolved objs →
       ∃ rows, objs = select_fields public_select <$> rows
               ∧ ∀ u, u ∈ rows →
                      u ∈ db ∧ User.companyId u = C1 ∧ User.companyId u ≠ C2)
  ∧ (∀ o, UserService.getUserById C1 id db = Resolved o →
       ∃ u, u ∈ db ∧ User.id u = id ∧ User.companyId u = C1
            ∧ User.companyId u ≠ C2 ∧ o = select_fields public_select u)
  ∧ of_company C2 (UserService.updateUser C1 id data db).2 = of_company C2 db
  ∧ of_company C2 (UserService.deleteUser C1 id db).2 = of_company C2 db.
Proof.
  intros Hne.
  split; [repeat split |].
  split; [| split; [| split]].
  - intros objs. unfold UserService.getAllUsers, findMany.
    cbn [fm_where fm_take fm_skip fm_select UserService.getAllUsers_query].
    destruct (_ <? 0); [intros H; discriminate H |].
    intros H.
    exists (window (default 10 limit) ((default 1 page - 1) * default 10 limit)
                   (filter (λ u, matches (mkWhere None (Some C1)) u) db)).
    split; [congruence |].
    intros u Hu. apply elem_of_window in Hu.
    apply list_elem_of_filter in Hu as [Hm Hin].
    apply matches_company in Hm. rewrite Hm. by repeat split.
  - intros o Ho. apply getUserById_found in Ho as (u & Hin & Hi & Hc & Eo).
    exists u. rewrite Hc. by repeat split.
  - by apply updateUser_other_company.
  - by apply deleteUser_other_company.
Qed.

Lemma tenant_isolation_witness :
  let rename := mkUpdateData (Some "Renamed"%string) None (Some AsADMIN) in
  of_company "cB" (UserService.updateUser "cA" "u1" rename Sample.table).2
    = [Sample.b1; Sample.b2]
  ∧ of_company "cB" (UserService.deleteUser "cA" "u1" Sample.table).2
    = [Sample.b1; Sample.b2].
Proof.
  intros rename.
  destruct (tenant_isolation Sample.table "cA" "cB" "u1" None None rename)
    as (_ & _ & _ & Hu & Hd).
  - discriminate.
  - rewrite Hu, Hd. split; reflexivity.
Defined.

(** ** OWNER rows *)

Lemma role_of_not_owner (a : AssignableRole) : role_of a ≠ OWNER.
Proof. destruct a; discriminate. Qed.

Lemma new_row_not_owner (fr : Fresh) (d : CreateData) :
  User.role (new_row fr d) ≠ OWNER.
Proof.
  unfold new_row. cbn [User.role].
  destruct (c_role d) as [a|]; [apply role_of_not_owner | discriminate].
Qed.

Lemma apply_data_owner (d : UpdateData) (u : User.t) :
  User.role (apply_data d u) = OWNER → User.role u = OWNER.
Proof.
  unfold apply_data. cbn [User.role].
  destruct (d_role d) as [a|]; [| done].
  intros H. by apply role_of_not_owner in H.
Qed.

Lemma owners_update (c companyId id : string) (data : UpdateData) (db : Store) :
  (User.id <$> owners c (UserService.updateUser companyId id data db).2)
    `sublist_of` (User.id <$> owners c db).
Proof.
  rewrite updateUser_snd. unfold owners.
  induction db as [|u db IH]; [reflexivity |].
  rewrite fmap_cons.
  set (u' := if matches _ u then apply_data data u else u).
  assert (Hid : User.id u' = User.id u) by (subst u'; by destruct (matches _ u)).
  assert (Hco : User.companyId u' = User.companyId u)
    by (subst u'; by destruct (matches _ u)).
  assert (Hro : User.role u' = OWNER → User.role u = OWNER).
  { subst u'. destruct (matches _ u); [apply apply_data_owner | done]. }
  destruct (decide (User.role u' = OWNER ∧ User.companyId u' = c)) as [[Hr Hc] | Hn].
  - rewrite (filter_cons_True _ u'), (filter_cons_True _ u).
    + rewrite !fmap_cons, Hid. by apply sublist_skip.
    + split; [by apply Hro | congruence].
    + by split.
  - rewrite (filter_cons_False _ u') by exact Hn.
    destruct (decide (User.role u = OWNER ∧ User.companyId u = c)) as [Ho | Ho].
    + rewrite (filter_cons_True _ u) by exact Ho.
      rewrite fmap_cons. by apply sublist_cons.
    + rewrite (filter_cons_False _ u) by exact Ho. exact IH.
Qed.

Lemma owners_delete (c companyId id : string) (db : Store) :
  (User.id <$> owners c (UserService.deleteUser companyId id db).2)
    `sublist_of` (User.id <$> owners c db).
Proof.
  rewrite deleteUser_snd. unfold owners.
  apply fmap_sublist.
  induction db as [|u db IH]; [reflexivity |].
  destruct (decide (¬ matches (mkWhere (Some id) (Some companyId)) u)) as [Hk | Hk].
  - rewrite (filter_cons_True _ u) by exact Hk.
    destruct (decide (User.role u = OWNER ∧ User.companyId u = c)) as [Ho | Ho].
    + rewrite !(filter_cons_True _ u) by exact Ho. by apply sublist_skip.
    + rewrite !(filter_cons_False _ u) by exact Ho. exact IH.
  - rewrite (filter_cons_False _ u) by exact Hk.
    destruct (decide (User.role u = OWNER ∧ User.companyId u = c)) as [Ho | Ho].
    + rewrite (filter_cons_True _ u) by exact Ho. by apply sublist_cons.
    + rewrite (filter_cons_False _ u) by exact Ho. exact IH.
Qed.

Lemma owners_create (c : string) (fr : Fresh) (data : CreateData) (db : Store) :
  owners c (UserService.createUser fr data db).2 = owners c db.
Proof.
  change ((UserService.createUser fr data db).2)
    with (place (fresh_slot fr) (new_row fr data) db).
  unfold owners, place. rewrite filter_app, filter_cons_False.
  - rewrite <- filter_app, take_drop. reflexivity.
  - intros [Hr _]. by apply new_row_not_owner in Hr.
Qed.

Lemma owners_step (c : string) (db : Store) (op : Op) :
  (User.id <$> owners c (step db op)) `sublist_of` (User.id <$> owners c db).
Proof.
  destruct op; unfold step.
  - reflexivity.
  - reflexivity.
  - apply owners_update.
  - apply owners_delete.
  - rewrite owners_create. reflexivity.
Qed.

(** C10: the role a call can write is ADMIN or USER, never OWNER: a row
    made by [createUser] is not an OWNER row, a row changed by [updateUser]
    is an OWNER row only if it was one before, and after any sequence of
    calls the identifiers of the OWNER rows of a company form a sublist of
    those before it. *)
Theorem owners_never_enlarged :
  (∀ a, role_of a ≠ OWNER)
  ∧ (∀ fr d, User.role (new_row fr d) ≠ OWNER)
  ∧ (∀ d u, User.role (apply_data d u) = OWNER → User.role u = OWNER)
  ∧ (∀ ops db c,
       (User.id <$> owners c (run_ops ops db)) `sublist_of` (User.id <$> owners c db)).
Proof.
  split; [exact role_of_not_owner |].
  split; [exact new_row_not_owner |].
  split; [exact apply_data_owner |].
  intros ops. induction ops as [|op ops IH]; intros db c.
  - reflexivity.
  - unfold run_ops. cbn [foldl]. fold (run_ops ops (step db op)).
    etrans; [apply IH | apply owners_step].
Qed.

(** ** The authorization gate *)

Lemma requireRole_absent (roles : list UserRole) (w : World) :
  user (req w) = None →
  requireRole roles w = (w, NextErr (mkAppError "Unauthorized" 401 (Some UNAUTHORIZED))).
Proof. intros H. unfold requireRole. rewrite H. reflexivity. Qed.

Lemma requireRole_member (roles : list UserRole) (w : World) (u : JwtPayload) :
  user (req w) = Some u → role u ∈ roles → requireRole roles w = (w, Next).
Proof.
  intros H Hin. unfold requireRole. rewrite H.
  rewrite bool_decide_eq_true_2 by exact Hin. reflexivity.
Qed.

Lemma requireRole_not_member (roles : list UserRole) (w : World) (u : JwtPayload) :
  user (req w) = Some u → role u ∉ roles →
  ∃ record, requireRole roles w = (logger_warn w record, NextErr forbidden_error).
Proof.
  intros H Hin. unfold requireRole. rewrite H.
  rewrite bool_decide_eq_false_2 by exact Hin. eexists. reflexivity.
Qed.

(** C6: [requireRole(roles)] calls [next()] exactly when the request
    carries an identity whose role is listed; without an identity it passes
    the 401 "Unauthorized" error on; with an identity whose role is not
    listed it logs a warning and passes the 403 "Forbidden" error on; the
    roles are not ordered: an OWNER is refused by a gate that lists only
    ADMIN and USER. *)
Theorem requireRole_membership (roles : list UserRole) (w : World) :
  ((requireRole roles w).2 = Next ↔ ∃ u, user (req w) = Some u ∧ role u ∈ roles)
  ∧ (user (req w) = None →
     requireRole roles w
     = (w, NextErr (mkAppError "Unauthorized" 401 (Some UNAUTHORIZED))))
  ∧ (∀ u, user (req w) = Some u → role u ∉ roles →
     ∃ record,
       requireRole roles w
       = (logger_warn w record,
          NextErr (mkAppError "Forbidden - Insufficient permissions" 403
                              (Some FORBIDDEN))))
  ∧ (∀ u, user (req w) = Some u → role u ∈ roles → requireRole roles w = (w, Next))
  ∧ (∀ u, user (req w) = Some u → role u = OWNER →
     (requireRole [ADMIN; USER] w).2 = NextErr forbidden_error).
Proof.
  split; [| split; [| split; [| split]]].
  - split.
    + destruct (user (req w)) as [u|] eqn:Hu.
      * destruct (decide (role u ∈ roles)) as [Hin | Hin].
        -- intros _. by exists u.
        -- destruct (requireRole_not_member roles w u Hu Hin) as [r E].
           rewrite E. intros H. discriminate H.
      * rewrite (requireRole_absent roles w Hu). intros H. discriminate H.
    + intros (u & Hu & Hin). by rewrite (requireRole_member roles w u Hu Hin).
  - apply requireRole_absent.
  - apply requireRole_not_member.
  - apply requireRole_member.
  - intros u Hu Hr.
    destruct (requireRole_not_member [ADMIN; USER] w u Hu) as [r E].
    + rewrite Hr. intros Hin.
      repeat (apply elem_of_cons in Hin as [Hin | Hin]; [discriminate Hin |]).
      by apply elem_of_nil in Hin.
    + by rewrite E.
Qed.

Lemma requireRole_membership_witness :
  let w := with_user (Sample.request "GET" [] None ∅) (mkPayload "o1" "cA" OWNER) in
  (requireRole [ADMIN; USER] w).2 = NextErr forbidden_error
  ∧ requireRole [ADMIN; OWNER] w = (w, Next).
Proof.
  intros w.
  destruct (requireRole_membership [ADMIN; USER] w) as (_ & _ & _ & _ & Hno).
  destruct (requireRole_membership [ADMIN; OWNER] w) as (_ & _ & _ & Hyes & _).
  split.
  - apply (Hno (mkPayload "o1" "cA" OWNER)); reflexivity.
  - apply (Hyes (mkPayload "o1" "cA" OWNER)); [reflexivity |].
    cbn [role]. apply list_elem_of_further, list_elem_of_here.
Defined.

(** ** The cache headers *)

(** C8: [cache] always calls [next()] and touches nothing but the response
    headers, which it sets to [advised_headers] of the request method, the
    environment and the duration (300 when not configured): for a method
    other than GET, or an environment other than production,
    [Cache-Control: no-store]; for GET in production,
    [Cache-Control: private, max-age=<duration>] and [Vary: Authorization]. *)
Theorem cache_headers (ENV : Env) (options : CacheOptions) (w : World) :
  let d := default 300 (duration options) in
  let out := cache ENV options w in
  out.2 = Next
  ∧ req out.1 = req w ∧ warnings out.1 = warnings w ∧ db out.1 = db w
  ∧ res_status (res out.1) = res_status (res w)
  ∧ res_headers (res out.1)
    = set_headers (advised_headers (method (req w)) (NODE_ENV ENV) d)
                  (res_headers (res w))
  ∧ (method (req w) ≠ "GET"%string ∨ NODE_ENV ENV ≠ "production"%string →
     out.1 = res_set w "Cache-Control" "no-store"
     ∧ res_headers (res out.1) !! "Cache-Control"%string = Some "no-store"%string)
  ∧ (method (req w) = "GET"%string → NODE_ENV ENV = "production"%string →
     res_headers (res out.1) !! "Cache-Control"%string
       = Some ("private, max-age=" +:+ pretty d)%string
     ∧ res_headers (res out.1) !! "Vary"%string = Some "Authorization"%string)
  ∧ (duration options = None → d = 300).
Proof.
  intros d out. subst out. unfold cache. fold d.
  destruct (String.eqb_spec (method (req w)) "GET") as [Hm | Hm];
    [destruct (String.eqb_spec (NODE_ENV ENV) "production") as [He | He] |];
    cbn [negb fst snd res_set req res warnings db res_status res_headers].
  - split_and!; try reflexivity.
    + unfold advised_headers. rewrite bool_decide_eq_true_2 by done. reflexivity.
    + intros [H | H]; contradiction.
    + intros _ _. split.
      * rewrite lookup_insert_ne by discriminate. apply lookup_insert_eq.
      * apply lookup_insert_eq.
    + intros H. subst d. by rewrite H.
  - split_and!; try reflexivity.
    + unfold advised_headers.
      rewrite bool_decide_eq_false_2 by (intros [_ ?]; contradiction).
      reflexivity.
    + intros _. split; [reflexivity | apply lookup_insert_eq].
    + intros _ H. contradiction.
    + intros H. subst d. by rewrite H.
  - split_and!; try reflexivity.
    + unfold advised_headers.
      rewrite bool_decide_eq_false_2 by (intros [? _]; contradiction).
      reflexivity.
    + intros _. split; [reflexivity | apply lookup_insert_eq].
    + intros H. contradiction.
    + intros H. subst d. by rewrite H.
Qed.

Lemma cache_headers_witness :
  let w := Sample.request "GET" [] None ∅ in
  res_headers (res (cache Sample.env (mkCacheOptions None) w).1)
    !! "Cache-Control"%string = Some "private, max-age=300"%string
  ∧ res_headers (res (cache Sample.env (mkCacheOptions None) w).1)
    !! "Vary"%string = Some "Authorization"%string
  ∧ (cache (mkEnv "development" "s3cret") (mkCacheOptions (Some 60)) w).1
    = res_set w "Cache-Control" "no-store".
Proof.
  intros w.
  destruct (cache_headers Sample.env (mkCacheOptions None) w)
    as (_ & _ & _ & _ & _ & _ & _ & Hprod & _).
  destruct (cache_headers (mkEnv "development" "s3cret") (mkCacheOptions (Some 60)) w)
    as (_ & _ & _ & _ & _ & _ & Hdev & _).
  destruct Hprod as [Hcc Hvary]; [reflexivity | reflexivity |].
  destruct Hdev as [Hset _]; [right; discriminate |].
  split; [exact Hcc |]. split; [exact Hvary | exact Hset].
Defined.

(** ** The authentication gate *)

Lemma prefix_append (p h : string) :
  String.prefix p h = true → ∃ rest, h = (p +:+ rest)%string.
Proof.
  revert h. induction p as [|a p IH]; intros h Hp.
  - by exists h.
  - destruct h as [|b h]; [discriminate Hp |].
    cbn [String.prefix] in Hp. destruct (ascii_dec a b) as [-> | _]; [| discriminate Hp].
    destruct (IH h Hp) as [rest ->]. by exists rest.
Qed.

Lemma split_on_first (sep : ascii) (s : string) :
  ∃ ws, split_on sep s = first_segment sep s :: ws.
Proof.
  induction s as [|c s [ws IH]]; cbn [split_on first_segment].
  - by eexists.
  - destruct (Ascii.eqb c sep); [by eexists |]. rewrite IH. by eexists.
Qed.

Lemma first_segment_clean (sep : ascii) (s : string) :
  occurs sep (first_segment sep s) = false.
Proof.
  induction s as [|c s IH]; cbn [first_segment]; [reflexivity |].
  destruct (Ascii.eqb c sep) eqn:E; [reflexivity |].
  cbn [occurs]. by rewrite E.
Qed.

Lemma first_segment_whole (sep : ascii) (s : string) :
  occurs sep s = false → first_segment sep s = s.
Proof.
  induction s as [|c s IH]; cbn [first_segment occurs]; [reflexivity |].
  intros H. apply orb_false_iff in H as [Hc Hs]. rewrite Hc. by rewrite IH.
Qed.

Lemma first_segment_stops (sep : ascii) (s rest : string) :
  occurs sep s = false →
  first_segment sep (s +:+ String sep rest) = s.
Proof.
  induction s as [|c s IH]; simpl.
  - intros _. by rewrite Ascii.eqb_refl.
  - intros H. apply orb_false_iff in H as [Hc Hs]. rewrite Hc. by rewrite IH.
Qed.

Lemma split_on_stops (sep : ascii) (s rest : string) :
  occurs sep s = false →
  split_on sep (s +:+ String sep rest) = s :: split_on sep rest.
Proof.
  induction s as [|c s IH]; simpl.
  - intros _. by rewrite Ascii.eqb_refl.
  - intros H. apply orb_false_iff in H as [Hc Hs]. rewrite Hc. by rewrite IH.
Qed.

Lemma bearer_token_rest (rest : string) :
  bearer_token (Some ("Bearer " +:+ rest)%string) = Some (first_segment " " rest).
Proof.
  unfold bearer_token.
  assert (Hp : String.prefix "Bearer " ("Bearer " +:+ rest) = true)
    by (simpl; by destruct rest).
  rewrite Hp.
  destruct (split_on_first " " rest) as [ws E].
  change ("Bearer " +:+ rest)%string with ("Bearer" +:+ String " " rest)%string.
  rewrite split_on_stops by reflexivity. by rewrite E.
Qed.

Lemma first_segment_split (sep : ascii) (s : string) :
  s = first_segment sep s
  ∨ ∃ rest, s = (first_segment sep s +:+ String sep rest)%string.
Proof.
  induction s as [|c s IH]; [by left |].
  cbn [first_segment]. destruct (Ascii.eqb_spec c sep) as [-> | Hc].
  - right. by exists s.
  - destruct IH as [IH | [rest IH]].
    + left. f_equal. exact IH.
    + right. exists rest.
      change (String c s = String c (first_segment sep s +:+ String sep rest)).
      f_equal. exact IH.
Qed.

(** A header that does not begin with the form [Bearer <token>] yields no
    token. *)
Lemma no_token_unless_begins (h : string) :
  ¬ begins_with_bearer_form h → no_token (bearer_token (Some h)) = true.
Proof.
  intros Hform.
  destruct (String.prefix "Bearer " h) eqn:Hp;
    [| unfold bearer_token; by rewrite Hp].
  apply prefix_append in Hp as [rest ->].
  rewrite bearer_token_rest. cbn [no_token].
  case_bool_decide as Hne; [reflexivity |].
  exfalso. apply Hform.
  destruct (first_segment_split " " rest) as [E | [more E]].
  - left. exists (first_segment " " rest).
    split; [exact Hne |]. split; [apply first_segment_clean | by rewrite <- E].
  - right. exists (first_segment " " rest), more.
    split; [exact Hne |]. split; [apply first_segment_clean |].
    change (" " +:+ more)%string with (String " " more). by rewrite <- E.
Qed.

Lemma bearer_form_exact (h : string) :
  bearer_form h →
  ∃ tok, bearer_token (Some h) = Some tok ∧ tok ≠ EmptyString
         ∧ h = ("Bearer " +:+ tok)%string.
Proof.
  intros (tok & Hne & Hclean & ->). exists tok. split; [| by split].
  rewrite bearer_token_rest. by rewrite first_segment_whole.
Qed.

Lemma token_when_begins (h : string) :
  begins_with_bearer_form h → no_token (bearer_token (Some h)) = false.
Proof.
  intros [Hform | (tok & more & Hne & Hclean & ->)].
  - destruct (bearer_form_exact h Hform) as (tok & -> & Hne & _).
    cbn [no_token]. by apply bool_decide_eq_false_2.
  - change (" " +:+ more)%string with (String " " more).
    rewrite bearer_token_rest, first_segment_stops by exact Hclean.
    cbn [no_token]. by apply bool_decide_eq_false_2.
Qed.

Section AuthenticationGate.

Variable ENV : Env.
Variable jwt_verify : string → string → string + JwtPayload.

(** What the gate does when [authenticate] fails. *)
Lemma requireAuth_failure (w : World) (msg : string) (rest : list Handler) :
  authenticate ENV jwt_verify (req w) = inl msg →
  ∃ w', dispatch (h_requireAuth ENV jwt_verify :: rest) w
        = mkRun ["requireAuth"%string] w' (Failed invalid_token_error)
        ∧ req w' = req w ∧ res w' = res w ∧ db w' = db w.
Proof.
  intros E. cbn [dispatch h_requireAuth h_run h_name]. unfold requireAuth.
  rewrite E. eexists. split; [reflexivity |]. by repeat split.
Qed.

Lemma authenticate_no_token (r : Request) :
  no_token (bearer_token (authorization r)) = true →
  authenticate ENV jwt_verify r = inl "No token provided"%string.
Proof. intros H. unfold authenticate. by rewrite H. Qed.

Lemma authenticate_rejected (r : Request) (tok msg : string) :
  bearer_token (authorization r) = Some tok →
  jwt_verify tok (JWT_SECRET ENV) = inl msg →
  ∃ msg', authenticate ENV jwt_verify r = inl msg'.
Proof.
  intros Ht Hv. unfold authenticate. rewrite Ht.
  destruct (no_token (Some tok)); [by eexists |].
  change (default EmptyString (Some tok)) with tok. rewrite Hv. by eexists.
Qed.

Lemma authenticate_verified (r : Request) (tok : string) (p : JwtPayload) :
  bearer_token (authorization r) = Some tok → tok ≠ EmptyString →
  jwt_verify tok (JWT_SECRET ENV) = inr p →
  authenticate ENV jwt_verify r = inr p.
Proof.
  intros Ht Hne Hv. unfold authenticate. rewrite Ht.
  cbn [no_token]. rewrite bool_decide_eq_false_2 by exact Hne.
  change (default EmptyString (Some tok)) with tok.
  rewrite Hv. by destruct p.
Qed.

Lemma authenticate_inr (r : Request) (p : JwtPayload) :
  authenticate ENV jwt_verify r = inr p →
  ∃ tok, bearer_token (authorization r) = Some tok ∧ tok ≠ EmptyString
         ∧ jwt_verify tok (JWT_SECRET ENV) = inr p.
Proof.
  unfold authenticate.
  destruct (bearer_token (authorization r)) as [tok|]; cbn [no_token].
  - case_bool_decide as Hne; [intros H; discriminate H |].
    change (default EmptyString (Some tok)) with tok.
    destruct (jwt_verify tok (JWT_SECRET ENV)) as [msg | q] eqn:Hv.
    + intros H; discriminate H.
    + intros H. exists tok. split; [reflexivity |]. split; [exact Hne |].
      destruct q. cbn [userId companyId role] in H. congruence.
  - intros H; discriminate H.
Qed.

End AuthenticationGate.

(** C5, as amended: the token of a request is the text between the
    leading [Bearer ] of the [Authorization] header and the next space, or
    the end of the header; what follows that space is not looked at.
    [requireAuth] passes the 401 "Unauthorized" error on, and no handler
    after it in the chain runs, when the header is absent, when it does not
    begin with the form [Bearer <token>], and when the token fails
    verification; request, response and table are left as they were.  When
    the token verifies, the gate attaches the [userId], [companyId] and
    [role] of the payload to the request and the chain goes on from there;
    the gate calls [next()] in no other case. *)
Theorem requireAuth_gate (ENV : Env) (jwt_verify : string → string → string + JwtPayload)
        (w : World) (rest : list Handler) :
  let gate := h_requireAuth ENV jwt_verify in
  let refused :=
    ∃ w', dispatch (gate :: rest) w
          = mkRun ["requireAuth"%string] w'
                  (Failed (mkAppError "Unauthorized - Invalid or expired token" 401
                                      (Some INVALID_TOKEN)))
          ∧ req w' = req w ∧ res w' = res w ∧ db w' = db w in
  (authorization (req w) = None → refused)
  ∧ (∀ h, authorization (req w) = Some h → ¬ begins_with_bearer_form h → refused)
  ∧ (∀ tok more, occurs " " tok = false →
       bearer_token (Some ("Bearer " +:+ tok)%string) = Some tok
       ∧ bearer_token (Some ("Bearer " +:+ tok +:+ " " +:+ more)%string) = Some tok)
  ∧ (∀ tok msg, bearer_token (authorization (req w)) = Some tok →
                jwt_verify tok (JWT_SECRET ENV) = inl msg → refused)
  ∧ (∀ tok p, bearer_token (authorization (req w)) = Some tok → tok ≠ EmptyString →
              jwt_verify tok (JWT_SECRET ENV) = inr p →
              requireAuth ENV jwt_verify w = (with_user w p, Next)
              ∧ user (req (with_user w p))
                = Some (mkPayload (userId p) (companyId p) (role p))
              ∧ dispatch (gate :: rest) w
                = let r := dispatch rest (with_user w p) in
                  mkRun ("requireAuth"%string :: trace r) (final r) (ending r))
  ∧ ((requireAuth ENV jwt_verify w).2 = Next →
     ∃ tok p, bearer_token (authorization (req w)) = Some tok
              ∧ jwt_verify tok (JWT_SECRET ENV) = inr p
              ∧ user (req (requireAuth ENV jwt_verify w).1) = Some p).
Proof.
  intros gate refused. subst gate refused.
  split; [| split; [| split; [| split; [| split]]]].
  - intros Hnone.
    apply (requireAuth_failure ENV jwt_verify w "No token provided").
    apply authenticate_no_token. by rewrite Hnone.
  - intros h Hh Hform.
    apply (requireAuth_failure ENV jwt_verify w "No token provided").
    apply authenticate_no_token. rewrite Hh. by apply no_token_unless_begins.
  - intros tok more Hclean. split.
    + rewrite bearer_token_rest. by rewrite first_segment_whole.
    + rewrite bearer_token_rest.
      change (" " +:+ more)%string with (String " " more).
      by rewrite first_segment_stops.
  - intros tok msg Ht Hv.
    destruct (authenticate_rejected ENV jwt_verify (req w) tok msg Ht Hv) as [msg' E].
    by apply (requireAuth_failure ENV jwt_verify w msg').
  - intros tok p Ht Hne Hv.
    pose proof (authenticate_verified ENV jwt_verify (req w) tok p Ht Hne Hv) as E.
    assert (Hgate : requireAuth ENV jwt_verify w = (with_user w p, Next))
      by (unfold requireAuth; by rewrite E).
    split; [exact Hgate |]. split; [by destruct p |].
    cbn [dispatch h_requireAuth h_run h_name]. by rewrite Hgate.
  - unfold requireAuth.
    destruct (authenticate ENV jwt_verify (req w)) as [msg | p] eqn:E.
    + intros H; discriminate H.
    + intros _. apply authenticate_inr in E as (tok & Ht & _ & Hv).
      exists tok, p. by repeat split.
Qed.

Lemma requireAuth_gate_witness :
  let handler := mkHandler "handler" (λ w, (w, Answered)) in
  let run auth :=
    dispatch [h_requireAuth Sample.env Sample.verify; handler]
             (Sample.request "GET" [] auth ∅) in
  ending (run None) = Failed invalid_token_error
  ∧ ending (run (Some "Basic abc"%string)) = Failed invalid_token_error
  ∧ ending (run (Some "Bearer  t-o1"%string)) = Failed invalid_token_error
  ∧ ending (run (Some "Bearer forged"%string)) = Failed invalid_token_error
  ∧ trace (run (Some "Bearer t-o1"%string)) = ["requireAuth"; "handler"]%string.
Proof.
  intros handler run. subst run. cbv beta.
  split; [| split; [| split; [| split]]].
  - destruct (requireAuth_gate Sample.env Sample.verify
                (Sample.request "GET" [] None ∅) [handler]) as (H & _).
    destruct H as (w' & E & _); [reflexivity |]. by rewrite E.
  - destruct (requireAuth_gate Sample.env Sample.verify
                (Sample.request "GET" [] (Some "Basic abc"%string) ∅) [handler])
      as (_ & H & _).
    destruct (H "Basic abc"%string) as (w' & E & _); [reflexivity | |].
    + intros Hb. apply token_when_begins in Hb. discriminate Hb.
    + by rewrite E.
  - destruct (requireAuth_gate Sample.env Sample.verify
                (Sample.request "GET" [] (Some "Bearer  t-o1"%string) ∅) [handler])
      as (_ & H & _).
    destruct (H "Bearer  t-o1"%string) as (w' & E & _); [reflexivity | |].
    + intros Hb. apply token_when_begins in Hb. discriminate Hb.
    + by rewrite E.
  - destruct (requireAuth_gate Sample.env Sample.verify
                (Sample.request "GET" [] (Some "Bearer forged"%string) ∅) [handler])
      as (_ & _ & _ & H & _).
    destruct (H "forged"%string "jwt malformed"%string) as (w' & E & _);
      [reflexivity | reflexivity |].
    by rewrite E.
  - destruct (requireAuth_gate Sample.env Sample.verify
                (Sample.request "GET" [] (Some "Bearer t-o1"%string) ∅) [handler])
      as (_ & _ & _ & _ & H & _).
    destruct (H "t-o1"%string (mkPayload "o1" "cA" OWNER)) as (_ & _ & E);
      [reflexivity | discriminate | reflexivity |].
    rewrite E. reflexivity.
Defined.

(** The sentence of the design document as it stands, "any other form
    fails", does not hold: this header is not of the form [Bearer <token>],
    yet the gate lets the request through to the next handler. *)
Lemma requireAuth_gate_counterexample :
  let h := "Bearer t-o1 anything else"%string in
  let w := Sample.request "GET" [] (Some h) ∅ in
  let handler := mkHandler "handler" (λ w, (w, Answered)) in
  ¬ bearer_form h
  ∧ requireAuth Sample.env Sample.verify w
    = (with_user w (mkPayload "o1" "cA" OWNER), Next)
  ∧ dispatch [h_requireAuth Sample.env Sample.verify; handler] w
    = mkRun ["requireAuth"; "handler"]%string
            (with_user w (mkPayload "o1" "cA" OWNER)) Finished.
Proof.
  intros h w handler. split; [| split; reflexivity].
  intros Hform. destruct (bearer_form_exact h Hform) as (tok & Ht & _ & Hh).
  assert (Et : tok = "t-o1"%string) by (vm_compute in Ht; congruence).
  rewrite Et in Hh. discriminate Hh.
Qed.

(** ** The route of [PATCH /users/:id] *)

Section PatchRoute.

Variable Schema : Type.
Variable updateUserSchema : Schema.
Variable validateRequest : Schema → World → World * Signal.
Variable update : World → World * Signal.

(** The chain of the route refuses every identity whose role is USER,
  whatever the path parameter: neither the validator nor the controller
  runs, so the controller has no occasion to compare [id] with the
  caller's [userId]. *)
Lemma patch_chain_refuses_USER (w : World) (u : JwtPayload) :
user (req w) = Some u → role u = USER →
∃ record,
  dispatch [ h_requireRole [ADMIN; OWNER];
             h_validateRequest Schema validateRequest updateUserSchema;
             mkHandler "userController.update" update ] w
  = mkRun ["requireRole"%string] (logger_warn w record) (Failed forbidden_error).
Proof.
intros Hu Hr.
destruct (requireRole_not_member [ADMIN; OWNER] w u Hu) as [record E].
- rewrite Hr. intros Hin.
  repeat (apply elem_of_cons in Hin as [Hin | Hin]; [discriminate Hin |]).
  by apply elem_of_nil in Hin.
- exists record. cbn [dispatch h_requireRole h_run h_name]. by rewrite E.
Qed.

End PatchRoute.

(** C2: the caller [u1], a USER of company [cA], sends
    [PATCH /users/u1] with [{ name: "New Name" }] and a valid token.  The
    router answers as it does for any other identifier: [requireRole] passes
    the 403 "Forbidden" error on, the validator and the controller do not
    run, and the table is unchanged; the update is not applied. *)
Theorem patch_own_profile_forbidden (Schema : Type) (createUserSchema updateUserSchema : Schema)
        (validateRequest : Schema → World → World * Signal)
        (getAll getUser create_ update delete_ : World → World * Signal) :
  let w := Sample.request "PATCH" ["u1"%string] (Some "Bearer t-u1"%string)
                          {[ "name"%string := "New Name"%string ]} in
  let run := users_router Sample.env Sample.verify Schema createUserSchema
                          updateUserSchema validateRequest
                          getAll getUser create_ update delete_ w in
  trace run = ["requireAuth"; "requireRole"]%string
  ∧ ending run = Failed (mkAppError "Forbidden - Insufficient permissions" 403
                                    (Some FORBIDDEN))
  ∧ user (req (final run)) = Some (mkPayload "u1" "cA" USER)
  ∧ params (req (final run)) !! "id"%string = Some "u1"%string
  ∧ db (final run) = Sample.table.
Proof.
  intros w run. subst run w. vm_compute. by repeat split.
Qed.

(** * Further properties of the service *)

Lemma filter_place_out {A} (P : A → Prop) `{!∀ x, Decision (P x)}
      (n : nat) (x : A) (l : list A) :
  ¬ P x → filter P (place n x l) = filter P l.
Proof.
  intros Hx. unfold place. rewrite filter_app, filter_cons_False by exact Hx.
  by rewrite <- filter_app, take_drop.
Qed.

Lemma filter_place_in {A} (P : A → Prop) `{!∀ x, Decision (P x)}
      (n : nat) (x : A) (l : list A) :
  P x → filter P (place n x l) = place (length (filter P (take n l))) x (filter P l).
Proof.
  intros Hx. unfold place.
  rewrite filter_app, filter_cons_True by exact Hx.
  assert (E : filter P l = filter P (take n l) ++ filter P (drop n l))
    by (by rewrite <- filter_app, take_drop).
  rewrite E. by rewrite take_app_length, drop_app_length.
Qed.

Lemma place_Permutation {A} (n : nat) (x : A) (l : list A) : place n x l ≡ₚ x :: l.
Proof.
  unfold place. rewrite <- Permutation_middle. by rewrite take_drop.
Qed.

Lemma place_sublist {A} (n : nat) (x : A) (l : list A) : l `sublist_of` place n x l.
Proof.
  unfold place. rewrite <- (take_drop n l) at 1.
  apply sublist_app; [reflexivity | by apply sublist_cons].
Qed.

Lemma filter_id_company (i c : string) (db : Store) :
  filter (λ u, matches (mkWhere (Some i) (Some c)) u) db
  = filter (λ u, User.id u = i ∧ User.companyId u = c) db.
Proof. apply list_filter_iff. intros u. apply matches_id_company. Qed.

Lemma getUserById_first_row (companyId id : string) (db : Store) :
  UserService.getUserById companyId id db
  = match first_row companyId id db with
    | Some u => Resolved (select_fields public_select u)
    | None => Rejected (ThrownApp (mkAppError "User not found" 404 None))
    end.
Proof.
  unfold UserService.getUserById, findFirst, first_row.
  cbn [ff_where ff_select UserService.getUserById_query].
  rewrite filter_id_company.
  by destruct (filter _ db).
Qed.

Lemma first_row_Some (companyId id : string) (db : Store) (u : User.t) :
  first_row companyId id db = Some u →
  u ∈ db ∧ User.id u = id ∧ User.companyId u = companyId.
Proof.
  unfold first_row. intros H. apply head_Some_elem_of in H.
  apply list_elem_of_filter in H as [[Hi Hc] Hin]. by repeat split.
Qed.

Lemma first_row_is_Some (companyId id : string) (db : Store) :
  (∃ u, u ∈ db ∧ User.id u = id ∧ User.companyId u = companyId) →
  is_Some (first_row companyId id db).
Proof.
  intros (u & Hin & Hi & Hc). unfold first_row.
  destruct (filter _ db) as [|v l] eqn:E; [| by eexists].
  assert (Hu : u ∈ filter (λ u, User.id u = id ∧ User.companyId u = companyId) db)
    by (apply list_elem_of_filter; by repeat split).
  rewrite E in Hu. by apply elem_of_nil in Hu.
Qed.

Lemma first_row_None (companyId id : string) (db : Store) :
  first_row companyId id db = None →
  filter (λ u, User.id u = id ∧ User.companyId u = companyId) db = [].
Proof. unfold first_row. by destruct (filter _ db). Qed.

(** X1: When a row of the company carries the identifier, [getUserById]
    resolves to the public columns of the first such row: the record's [id]
    is the one asked for, and it has neither [password] nor [companyId]. *)
Theorem getUserById_resolves (db : Store) (companyId id : string) :
  (∃ u, u ∈ db ∧ User.id u = id ∧ User.companyId u = companyId) →
  ∃ u0, first_row companyId id db = Some u0
        ∧ u0 ∈ db ∧ User.companyId u0 = companyId
        ∧ UserService.getUserById companyId id db
          = Resolved (select_fields public_select u0)
        ∧ select_fields public_select u0 !! "id"%string = Some (VStr id)
        ∧ dom (select_fields public_select u0) = list_to_set public_select
        ∧ select_fields public_select u0 !! "password"%string = None
        ∧ select_fields public_select u0 !! "companyId"%string = None.
Proof.
  intros Hex. destruct (first_row_is_Some companyId id db Hex) as [u0 E].
  destruct (first_row_Some companyId id db u0 E) as (Hin & Hi & Hc).
  exists u0. split_and!; try assumption.
  - rewrite getUserById_first_row, E. reflexivity.
  - rewrite public_id, Hi. reflexivity.
  - apply public_dom.
  - apply public_no_password.
  - apply public_no_companyId.
Qed.

Lemma getUserById_resolves_witness :
  UserService.getUserById "cB" "u1" Sample.table
  = Resolved (select_fields public_select Sample.b1).
Proof.
  destruct (getUserById_resolves Sample.table "cB" "u1") as (u0 & E & _ & _ & G & _).
  - exists Sample.b1. split; [| by split].
    unfold Sample.table. apply list_elem_of_further, list_elem_of_here.
  - rewrite G.
    assert (E' : first_row "cB" "u1" Sample.table = Some Sample.b1) by reflexivity.
    assert (Hu : u0 = Sample.b1) by congruence.
    by rewrite Hu.
Defined.

(** X2: A row made by [createUser] is the one [getUserById] finds afterwards
    under the new identifier, and the record is the one [createUser]
    returned, provided no older row of the company carries that identifier. *)
Theorem createUser_then_getUserById (fr : Fresh) (data : CreateData) (db : Store) :
  first_row (c_companyId data) (fresh_id fr) db = None →
  UserService.getUserById (c_companyId data) (fresh_id fr)
                          (UserService.createUser fr data db).2
  = (UserService.createUser fr data db).1.
Proof.
  intros Hnone.
  change ((UserService.createUser fr data db).2)
    with (place (fresh_slot fr) (new_row fr data) db).
  change ((UserService.createUser fr data db).1)
    with (Resolved (select_fields public_select (new_row fr data))).
  rewrite getUserById_first_row. unfold first_row.
  rewrite filter_place_in by (by split).
  rewrite (first_row_None _ _ _ Hnone). unfold place.
  by rewrite take_nil, drop_nil.
Qed.

Lemma createUser_then_getUserById_witness :
  let bob := mkCreateData "Bob" "bob@x.com" "StrongP@ss1" (Some AsADMIN) "cB" in
  let fr := mkFresh "o1" 50 0 in
  UserService.getUserById "cB" "o1" (UserService.createUser fr bob Sample.table).2
  = Resolved (select_fields public_select (new_row fr bob)).
Proof.
  intros bob fr.
  apply (createUser_then_getUserById fr bob Sample.table). reflexivity.
Defined.

(** X3: After [deleteUser], whether it resolved or not, the identifier is gone
    from the company: [getUserById] is rejected with 404, and a second
    [deleteUser] is rejected with 404 and changes nothing. *)
Theorem deleteUser_then_gone (db : Store) (companyId id : string) :
  let db' := (UserService.deleteUser companyId id db).2 in
  UserService.getUserById companyId id db'
    = Rejected (ThrownApp (mkAppError "User not found" 404 None))
  ∧ UserService.deleteUser companyId id db'
    = (Rejected (ThrownApp (mkAppError "User not found" 404 None)), db').
Proof.
  intros db'.
  assert (Hgone : ∀ u, u ∈ db' → User.id u = id → User.companyId u ≠ companyId).
  { intros u Hu Hi Hc. subst db'. rewrite deleteUser_snd in Hu.
    apply list_elem_of_filter in Hu as [Hm _]. apply Hm.
    apply matches_id_company. by split. }
  split.
  - rewrite getUserById_first_row.
    destruct (first_row companyId id db') as [u|] eqn:E; [| reflexivity].
    apply first_row_Some in E as (Hin & Hi & Hc). by destruct (Hgone u Hin Hi).
  - by apply deleteUser_zero_rows.
Qed.

(** X4: When a row of the company carries the identifier, [deleteUser]
    resolves; the table loses exactly the rows of that company with that
    identifier and keeps every other row, in order. *)
Theorem deleteUser_removes (db : Store) (companyId id : string) :
  (∃ u, u ∈ db ∧ User.id u = id ∧ User.companyId u = companyId) →
  let db' := (UserService.deleteUser companyId id db).2 in
  (UserService.deleteUser companyId id db).1 = Resolved tt
  ∧ db' = filter (λ u, ¬ (User.id u = id ∧ User.companyId u = companyId)) db
  ∧ (∀ v, v ∈ db' ↔ v ∈ db ∧ ¬ (User.id v = id ∧ User.companyId v = companyId))
  ∧ (length db' < length db)%nat.
Proof.
  intros Hex db'.
  assert (Hdb : db' = filter (λ u, ¬ (User.id u = id ∧ User.companyId u = companyId)) db).
  { subst db'. rewrite deleteUser_snd. apply list_filter_iff. intros u.
    by rewrite matches_id_company. }
  destruct (first_row_is_Some companyId id db Hex) as [u0 E].
  split_and!.
  - unfold UserService.deleteUser, deleteMany.
    cbn [dm_where UserService.deleteUser_query count].
    rewrite filter_id_company. unfold first_row in E.
    destruct (filter (λ u, User.id u = id ∧ User.companyId u = companyId) db)
      as [|x l]; [discriminate E |].
    rewrite bool_decide_eq_false_2 by (cbn [length]; lia). reflexivity.
  - exact Hdb.
  - intros v. rewrite Hdb, list_elem_of_filter. tauto.
  - rewrite Hdb. destruct Hex as (u & Hin & Hi & Hc).
    apply (length_filter_lt _ db u Hin). intros Hn. apply Hn. by split.
Qed.

Lemma deleteUser_removes_witness :
  UserService.deleteUser "cA" "u1" Sample.table
  = (Resolved tt, [Sample.o1; Sample.b1; Sample.b2]).
Proof.
  destruct (deleteUser_removes Sample.table "cA" "u1") as (H1 & H2 & _).
  - exists Sample.u1. split; [| by split].
    unfold Sample.table. do 2 apply list_elem_of_further. apply list_elem_of_here.
  - rewrite (surjective_pairing (UserService.deleteUser "cA" "u1" Sample.table)).
    rewrite H1, H2. reflexivity.
Defined.

Lemma apply_data_matches (w : UserWhere) (d : UpdateData) (u : User.t) :
  matches w (apply_data d u) = matches w u.
Proof. reflexivity. Qed.

Lemma updated_matches (w w' : UserWhere) (d : UpdateData) (u : User.t) :
  matches w' (if matches w u then apply_data d u else u) = matches w' u.
Proof. by destruct (matches w u). Qed.

Lemma first_row_update (companyId id : string) (data : UpdateData) (db : Store) :
  first_row companyId id (UserService.updateUser companyId id data db).2
  = apply_data data <$> first_row companyId id db.
Proof.
  rewrite updateUser_snd. unfold first_row.
  rewrite <- !filter_id_company.
  induction db as [|u db IH]; [reflexivity |].
  rewrite fmap_cons.
  destruct (matches (mkWhere (Some id) (Some companyId)) u) eqn:Hm.
  - assert (H1 : matches (mkWhere (Some id) (Some companyId)) u)
      by (apply Is_true_true; exact Hm).
    assert (H2 : matches (mkWhere (Some id) (Some companyId)) (apply_data data u))
      by (apply Is_true_true; rewrite apply_data_matches; exact Hm).
    rewrite (filter_cons_True _ u), (filter_cons_True _ (apply_data data u));
      [reflexivity | exact H2 | exact H1].
  - assert (H1 : ¬ matches (mkWhere (Some id) (Some companyId)) u)
      by (apply Is_true_false; exact Hm).
    rewrite !(filter_cons_False _ u) by exact H1. exact IH.
Qed.

(** X5: After [updateUser] on an identifier the company has, [getUserById]
    resolves to a record of that row in which the provided fields are
    replaced and [id], [createdAt] and the fields not provided are as
    before. *)
Theorem updateUser_then_getUserById (db : Store) (companyId id : string)
        (data : UpdateData) :
  (∃ u, u ∈ db ∧ User.id u = id ∧ User.companyId u = companyId) →
  ∃ u0 o, first_row companyId id db = Some u0
          ∧ UserService.getUserById companyId id
              (UserService.updateUser companyId id data db).2 = Resolved o
          ∧ o !! "id"%string = Some (VStr id)
          ∧ o !! "name"%string = Some (VStr (default (User.name u0) (d_name data)))
          ∧ o !! "email"%string = Some (VStr (default (User.email u0) (d_email data)))
          ∧ o !! "role"%string
            = Some (VRole (default (User.role u0) (role_of <$> d_role data)))
          ∧ o !! "createdAt"%string = Some (VDate (User.createdAt u0)).
Proof.
  intros Hex. destruct (first_row_is_Some companyId id db Hex) as [u0 E].
  destruct (first_row_Some companyId id db u0 E) as (_ & Hi & _).
  exists u0, (select_fields public_select (apply_data data u0)). split_and!.
  - exact E.
  - rewrite getUserById_first_row, first_row_update, E. reflexivity.
  - rewrite public_id. cbn [apply_data User.id]. by rewrite Hi.
  - rewrite lookup_select_fields. reflexivity.
  - rewrite lookup_select_fields. reflexivity.
  - rewrite lookup_select_fields. reflexivity.
  - rewrite lookup_select_fields. reflexivity.
Qed.

Lemma updateUser_then_getUserById_witness :
  let patch := mkUpdateData (Some "Uma B."%string) None (Some AsADMIN) in
  ∃ o, UserService.getUserById "cA" "u1"
         (UserService.updateUser "cA" "u1" patch Sample.table).2 = Resolved o
       ∧ o !! "name"%string = Some (VStr "Uma B.")
       ∧ o !! "email"%string = Some (VStr "uma@a.com")
       ∧ o !! "role"%string = Some (VRole ADMIN).
Proof.
  intros patch.
  destruct (updateUser_then_getUserById Sample.table "cA" "u1" patch)
    as (u0 & o & E & G & _ & Hn & He & Hr & _).
  - exists Sample.u1. split; [| by split].
    unfold Sample.table. do 2 apply list_elem_of_further. apply list_elem_of_here.
  - assert (E' : first_row "cA" "u1" Sample.table = Some Sample.u1) by reflexivity.
    assert (Hu : u0 = Sample.u1) by congruence.
    rewrite Hu in Hn, He, Hr. exists o. by repeat split.
Defined.

(** X6: [updateUser] adds no row, removes none and moves none to another
    company: identifiers, companies, passwords and creation times are,
    position by position, what they were; the count it reports
    is the number of rows of the company with the identifier. *)
Theorem updateUser_keeps_identity (db : Store) (companyId id : string)
        (data : UpdateData) :
  let db' := (UserService.updateUser companyId id data db).2 in
  User.id <$> db' = User.id <$> db
  ∧ User.companyId <$> db' = User.companyId <$> db
  ∧ User.password <$> db' = User.password <$> db
  ∧ User.createdAt <$> db' = User.createdAt <$> db
  ∧ length db' = length db
  ∧ (UserService.updateUser companyId id data db).1
    = Resolved (mkBatch (length (filter
        (λ u, User.id u = id ∧ User.companyId u = companyId) db))).
Proof.
  intros db'. subst db'. rewrite updateUser_snd.
  split_and!.
  1-4: rewrite <- list_fmap_compose; apply list_fmap_ext; intros i u _;
       unfold compose; by destruct (matches _ u).
  - apply length_fmap.
  - rewrite updateUser_resolves, filter_id_company. reflexivity.
Qed.

Lemma apply_data_idemp (d : UpdateData) (u : User.t) :
  apply_data d (apply_data d u) = apply_data d u.
Proof.
  unfold apply_data. cbn [User.id User.name User.email User.password User.role
                          User.companyId User.createdAt User.updatedAt].
  f_equal.
  - by destruct (d_name d).
  - by destruct (d_email d).
  - by destruct (d_role d).
Qed.

(** X7: Sending the same update a second time reports the same count and
    leaves names, emails and roles, position by position, as the first
    left them. *)
Theorem updateUser_idempotent (db : Store) (companyId id : string) (data : UpdateData) :
  let once := UserService.updateUser companyId id data db in
  let twice := UserService.updateUser companyId id data once.2 in
  twice.1 = once.1
  ∧ User.name <$> twice.2 = User.name <$> once.2
  ∧ User.email <$> twice.2 = User.email <$> once.2
  ∧ User.role <$> twice.2 = User.role <$> once.2.
Proof.
  intros once twice.
  assert (Hrows : twice.2 = once.2).
  { subst twice once. rewrite !updateUser_snd.
    rewrite <- list_fmap_compose. apply list_fmap_ext. intros i u _.
    unfold compose. destruct (matches _ u) eqn:Hm.
    - rewrite apply_data_matches, Hm. apply apply_data_idemp.
    - by rewrite Hm. }
  split; [| by rewrite Hrows].
  clear Hrows. subst twice once. rewrite !updateUser_resolves, updateUser_snd. do 2 f_equal.
  induction db as [|u db IH]; [reflexivity |].
  rewrite fmap_cons.
  destruct (matches (mkWhere (Some id) (Some companyId)) u) eqn:Hm.
  - assert (H1 : matches (mkWhere (Some id) (Some companyId)) u)
      by (apply Is_true_true; exact Hm).
    assert (H2 : matches (mkWhere (Some id) (Some companyId)) (apply_data data u))
      by (apply Is_true_true; rewrite apply_data_matches; exact Hm).
    rewrite (filter_cons_True _ u), (filter_cons_True _ (apply_data data u));
      [| exact H2 | exact H1].
    cbn [length]. by rewrite IH.
  - assert (H1 : ¬ matches (mkWhere (Some id) (Some companyId)) u)
      by (apply Is_true_false; exact Hm).
    rewrite !(filter_cons_False _ u) by exact H1. exact IH.
Qed.

(** ** Creating *)

(** X8: [createUser] adds exactly one row and touches no other: the table
    afterwards is the old rows, in their order, and the new row somewhere
    among them; the rows of every other company are the same, in the same
    order; the company named in [data] has the new row and its old ones;
    the new row holds the password as it was passed and, when a role is
    given, that role. *)
Theorem createUser_adds_one_row (fr : Fresh) (data : CreateData) (db : Store) :
  let row := new_row fr data in
  let db' := (UserService.createUser fr data db).2 in
  db' ≡ₚ row :: db
  ∧ db `sublist_of` db'
  ∧ length db' = S (length db)
  ∧ (∀ c, c ≠ c_companyId data → of_company c db' = of_company c db)
  ∧ of_company (c_companyId data) db' ≡ₚ row :: of_company (c_companyId data) db
  ∧ of_company (c_companyId data) db `sublist_of` of_company (c_companyId data) db'
  ∧ User.password row = c_password data
  ∧ (∀ a, c_role data = Some a → User.role row = role_of a).
Proof.
  intros row db'.
  assert (Hdb : db' = place (fresh_slot fr) row db) by reflexivity.
  split_and!.
  - rewrite Hdb. apply place_Permutation.
  - rewrite Hdb. apply place_sublist.
  - rewrite Hdb, (place_Permutation (fresh_slot fr) row db). reflexivity.
  - intros c Hc. rewrite Hdb. unfold of_company.
    apply filter_place_out. intros Hc'. apply Hc. by rewrite <- Hc'.
  - rewrite Hdb. unfold of_company.
    rewrite filter_place_in by reflexivity. apply place_Permutation.
  - rewrite Hdb. unfold of_company.
    rewrite filter_place_in by reflexivity. apply place_sublist.
  - reflexivity.
  - intros a Ha. subst row. unfold new_row. cbn [User.role]. by rewrite Ha.
Qed.

Lemma createUser_adds_one_row_witness :
  let bob := mkCreateData "Bob" "bob@x.com" "StrongP@ss1" (Some AsADMIN) "cB" in
  let db' := (UserService.createUser (mkFresh "n1" 50 0) bob Sample.table).2 in
  of_company "cA" db' = [Sample.o1; Sample.u1]
  ∧ User.role (new_row (mkFresh "n1" 50 0) bob) = ADMIN.
Proof.
  intros bob db'.
  destruct (createUser_adds_one_row (mkFresh "n1" 50 0) bob Sample.table)
    as (_ & _ & _ & Hother & _ & _ & _ & Hrole).
  split.
  - subst db'. rewrite (Hother "cA").
    + reflexivity.
    + intros H. discriminate H.
  - exact (Hrole AsADMIN eq_refl).
Defined.

(** ** Pages *)

Lemma getAllUsers_page_k (db : Store) (companyId : string) (limit : Z) (k : nat) :
  0 ≤ limit →
  listed (UserService.getAllUsers companyId (Some (Z.of_nat k + 1)) (Some limit) db)
  = select_fields public_select
      <$> take (Z.to_nat limit) (drop (k * Z.to_nat limit) (of_company companyId db)).
Proof.
  intros Hl. rewrite getAllUsers_window by exact Hl.
  change (default 1 (Some (Z.of_nat k + 1))) with (Z.of_nat k + 1).
  change (default 10 (Some limit)) with limit.
  assert (Hskip : ((Z.of_nat k + 1 - 1) * limit <? 0) = false)
    by (apply Z.ltb_ge; nia).
  rewrite Hskip. cbn [listed].
  replace (Z.to_nat ((Z.of_nat k + 1 - 1) * limit)) with (k * Z.to_nat limit)%nat
    by nia.
  reflexivity.
Qed.

(** X9: Paging loses and repeats nothing: for a non-negative limit the pages
    [1 .. n], one after the other, are the first [n * limit] rows of the
    company in table order; once [n * limit] reaches the number of rows of
    the company they are all of its rows, each once. *)
Theorem pages_cover (db : Store) (companyId : string) (limit : Z) (n : nat) :
  0 ≤ limit →
  pages companyId limit n db
  = select_fields public_select
      <$> take (n * Z.to_nat limit) (of_company companyId db)
  ∧ ((length (of_company companyId db) ≤ n * Z.to_nat limit)%nat →
     pages companyId limit n db
     = select_fields public_select <$> of_company companyId db).
Proof.
  intros Hl.
  assert (E : pages companyId limit n db
              = select_fields public_select
                  <$> take (n * Z.to_nat limit) (of_company companyId db)).
  { unfold pages. induction n as [|n IH]; [reflexivity |].
    rewrite seq_S, fmap_app, join_app, IH. cbn [fmap list_fmap mjoin list_join].
    rewrite app_nil_r, Nat.add_0_l, getAllUsers_page_k by exact Hl.
    rewrite <- fmap_app, take_take_drop. do 2 f_equal. lia. }
  split; [exact E |].
  intros Hlen. rewrite E, take_ge by exact Hlen. reflexivity.
Qed.

Lemma pages_cover_witness :
  pages "cA" 4 4 Sample.fifteen
  = select_fields public_select <$> (Sample.member "cA" <$> seq 1 15).
Proof.
  destruct (pages_cover Sample.fifteen "cA" 4 4) as [_ H]; [lia |].
  rewrite H; [reflexivity |]. vm_compute. lia.
Defined.

(** X10: A page past the last row is an empty list, not an error. *)
Theorem getAllUsers_past_the_end (db : Store) (companyId : string) (page limit : Z) :
  1 ≤ page → 0 ≤ limit →
  Z.of_nat (length (of_company companyId db)) ≤ (page - 1) * limit →
  UserService.getAllUsers companyId (Some page) (Some limit) db = Resolved [].
Proof.
  intros Hp Hl Hlen. rewrite getAllUsers_window by exact Hl.
  change (default 1 (Some page)) with page.
  change (default 10 (Some limit)) with limit.
  assert (Hskip : ((page - 1) * limit <? 0) = false) by (apply Z.ltb_ge; nia).
  rewrite Hskip, drop_ge by lia. by rewrite take_nil.
Qed.

Lemma getAllUsers_past_the_end_witness :
  UserService.getAllUsers "cA" (Some 3) (Some 10) Sample.fifteen = Resolved [].
Proof.
  apply getAllUsers_past_the_end; [lia | lia |]. vm_compute. discriminate.
Defined.

(** ** Sequences of calls *)

Lemma step_other_company (C2 : string) (db : Store) (op : Op) :
  op_company op ≠ C2 → of_company C2 (step db op) = of_company C2 db.
Proof.
  destruct op as [c p l | c i | c i d | c i | fr d]; cbn [op_company step]; intros Hne.
  - reflexivity.
  - reflexivity.
  - by apply updateUser_other_company.
  - by apply deleteUser_other_company.
  - change ((UserService.createUser fr d db).2)
      with (place (fresh_slot fr) (new_row fr d) db).
    unfold of_company. by apply filter_place_out.
Qed.

(** X11: Whatever calls are made on behalf of other companies, in whatever
    order, the rows of a company stay exactly as they were. *)
Theorem run_ops_other_company (C2 : string) (ops : list Op) (db : Store) :
  (∀ op, op ∈ ops → op_company op ≠ C2) →
  of_company C2 (run_ops ops db) = of_company C2 db.
Proof.
  revert db. induction ops as [|op ops IH]; intros db Hall; [reflexivity |].
  unfold run_ops. cbn [foldl]. fold (run_ops ops (step db op)).
  rewrite IH by (intros o Ho; apply Hall; by right).
  apply step_other_company. apply Hall. by left.
Qed.

Lemma run_ops_other_company_witness :
  of_company "cB"
    (run_ops [ DeleteUser "cA" "u1";
               CreateUser (mkFresh "b2" 60 1)
                          (mkCreateData "Al" "al@a.com" "pw" None "cA");
               UpdateUser "cA" "b2" (mkUpdateData None None (Some AsADMIN)) ]
             Sample.table)
  = [Sample.b1; Sample.b2].
Proof.
  rewrite run_ops_other_company; [reflexivity |].
  intros op Hop.
  repeat (apply elem_of_cons in Hop as [-> | Hop]; [discriminate |]).
  by apply elem_of_nil in Hop.
Defined.

(** * Further properties of the gates *)

(** ** The token taken from the header *)

(** X12: The gate reads a header the way it is written for it, and no other
    way: the token of [Bearer <token>] is given back as it is when it has
    no space; whatever follows a space after the token is dropped; and a
    token is found only in a header that starts with [Bearer ], in which
    case it has no space in it. *)
Theorem bearer_token_round_trip (tok : string) :
  occurs " " tok = false →
  bearer_token (Some ("Bearer " +:+ tok)%string) = Some tok
  ∧ (∀ rest, bearer_token (Some ("Bearer " +:+ tok +:+ " " +:+ rest)%string) = Some tok)
  ∧ (∀ h t, bearer_token h = Some t →
            occurs " " t = false
            ∧ ∃ rest, h = Some ("Bearer " +:+ rest)%string ∧ t = first_segment " " rest).
Proof.
  intros Hclean. split_and!.
  - rewrite bearer_token_rest. by rewrite first_segment_whole.
  - intros rest. rewrite bearer_token_rest.
    change (" " +:+ rest)%string with (String " " rest).
    by rewrite first_segment_stops.
  - intros h t Ht. destruct h as [h|]; [| discriminate Ht].
    destruct (String.prefix "Bearer " h) eqn:Hp.
    + apply prefix_append in Hp as [rest ->].
      rewrite bearer_token_rest in Ht.
      assert (Et : t = first_segment " " rest) by congruence.
      split; [rewrite Et; apply first_segment_clean |]. by exists rest.
    + unfold bearer_token in Ht. rewrite Hp in Ht. discriminate Ht.
Qed.

Lemma bearer_token_round_trip_witness :
  bearer_token (Some "Bearer t-u1"%string) = Some "t-u1"%string
  ∧ bearer_token (Some "Bearer t-u1 and more"%string) = Some "t-u1"%string.
Proof.
  destruct (bearer_token_round_trip "t-u1") as (H1 & H2 & _); [reflexivity |].
  split; [exact H1 | exact (H2 "and more"%string)].
Defined.

Section GateProperties.

Variable ENV : Env.
Variable jwt_verify : string → string → string + JwtPayload.

Lemma authenticate_iff_verified (r : Request) (p : JwtPayload) :
  authenticate ENV jwt_verify r = inr p ↔ verified ENV jwt_verify r p.
Proof.
  split.
  - apply authenticate_inr.
  - intros (tok & Ht & Hne & Hv). by apply (authenticate_verified ENV jwt_verify r tok).
Qed.

Lemma authenticate_unverified (r : Request) :
  (∀ p, ¬ verified ENV jwt_verify r p) →
  ∃ msg, authenticate ENV jwt_verify r = inl msg.
Proof.
  intros Hno. destruct (authenticate ENV jwt_verify r) as [msg | p] eqn:E.
  - by exists msg.
  - apply authenticate_iff_verified in E. by destruct (Hno p).
Qed.

(** X13: The gate accepts a header with text after the token: when the token
    alone verifies, the request is authenticated as if the rest were not
    there. *)
Theorem requireAuth_ignores_trailing_text (w : World) (tok rest : string)
        (p : JwtPayload) :
  authorization (req w) = Some ("Bearer " +:+ tok +:+ " " +:+ rest)%string →
  occurs " " tok = false → tok ≠ EmptyString →
  jwt_verify tok (JWT_SECRET ENV) = inr p →
  requireAuth ENV jwt_verify w = (with_user w p, Next).
Proof.
  intros Hh Hclean Hne Hv. unfold requireAuth.
  assert (E : authenticate ENV jwt_verify (req w) = inr p).
  { apply authenticate_iff_verified. exists tok. split; [| by split].
    rewrite Hh. change (" " +:+ rest)%string with (String " " rest).
    rewrite bearer_token_rest. by rewrite first_segment_stops. }
  by rewrite E.
Qed.

End GateProperties.

Lemma requireAuth_ignores_trailing_text_witness :
  let w := Sample.request "GET" [] (Some "Bearer t-o1 anything else"%string) ∅ in
  requireAuth Sample.env Sample.verify w
  = (with_user w (mkPayload "o1" "cA" OWNER), Next).
Proof.
  intros w.
  apply (requireAuth_ignores_trailing_text Sample.env Sample.verify w
           "t-o1" "anything else"); [reflexivity | reflexivity | discriminate | reflexivity].
Defined.

(** ** The role check *)

(** X14: [requireRole] changes neither request, response nor table; when it
    refuses with 403 it writes one warning, which names the roles required
    and the caller's role, user and company; otherwise, also when it
    refuses with 401, it writes none. *)
Theorem requireRole_effects (roles : list UserRole) (w : World) :
  let out := requireRole roles w in
  req out.1 = req w ∧ res out.1 = res w ∧ db out.1 = db w
  ∧ (out.2 = NextErr forbidden_error →
     ∃ u record, user (req w) = Some u
                 ∧ warnings out.1 = warnings w ++ [record]
                 ∧ ("requiredRoles"%string, LRoles roles) ∈ record
                 ∧ ("userRole"%string, LRole (role u)) ∈ record
                 ∧ ("userId"%string, LStr (userId u)) ∈ record
                 ∧ ("companyId"%string, LStr (companyId u)) ∈ record)
  ∧ (out.2 ≠ NextErr forbidden_error → out.1 = w).
Proof.
  intros out. subst out. unfold requireRole.
  destruct (user (req w)) as [u|]; [case_bool_decide as Hin |]; cbn [fst snd].
  - split_and!; try reflexivity. intros Hx; discriminate Hx.
  - split_and!; try reflexivity.
    + intros _. exists u. eexists. split_and!; [reflexivity | reflexivity | ..];
        repeat constructor.
    + intros Hx. by destruct Hx.
  - split_and!; try reflexivity. intros Hx; discriminate Hx.
Qed.

Lemma requireRole_effects_witness :
  let w := with_user (Sample.request "DELETE" ["u1"%string] None ∅)
                     (mkPayload "u1" "cA" USER) in
  length (warnings (requireRole [OWNER] w).1) = 1%nat
  ∧ (requireRole [USER] w).1 = w.
Proof.
  intros w.
  destruct (requireRole_effects [OWNER] w) as (_ & _ & _ & Hlog & _).
  destruct (requireRole_effects [USER] w) as (_ & _ & _ & _ & Hsame).
  split.
  - destruct Hlog as (u & record & _ & E & _); [reflexivity |]. by rewrite E.
  - apply Hsame. discriminate.
Defined.

(** X15: Listing more roles never refuses a caller that was let through; an
    empty list lets nobody through; the list of all three roles lets every
    caller with an identity through. *)
Theorem requireRole_monotone (roles roles' : list UserRole) (w : World) :
  ((∀ r, r ∈ roles → r ∈ roles') →
   (requireRole roles w).2 = Next → (requireRole roles' w).2 = Next)
  ∧ (requireRole [] w).2 ≠ Next
  ∧ (is_Some (user (req w)) → requireRole [OWNER; ADMIN; USER] w = (w, Next)).
Proof.
  split_and!.
  - intros Hsub. unfold requireRole.
    destruct (user (req w)) as [u|]; [| intros H; discriminate H].
    case_bool_decide as Hin; [| intros H; discriminate H].
    intros _. by rewrite bool_decide_eq_true_2 by (by apply Hsub).
  - unfold requireRole. destruct (user (req w)) as [u|]; [| discriminate].
    rewrite bool_decide_eq_false_2 by apply not_elem_of_nil. discriminate.
  - intros [u Hu]. apply (requireRole_member _ w u Hu).
    destruct (role u); repeat constructor.
Qed.

Lemma requireRole_monotone_witness :
  let w := with_user (Sample.request "GET" [] None ∅) (mkPayload "o1" "cA" OWNER) in
  (requireRole [ADMIN; OWNER] w).2 = Next.
Proof.
  intros w.
  destruct (requireRole_monotone [OWNER] [ADMIN; OWNER] w) as (H & _).
  apply H; [| reflexivity].
  intros r Hr. by right.
Defined.

(** ** The cache headers, again *)

Lemma world_eq (w w' : World) :
  req w = req w' → res_headers (res w) = res_headers (res w') →
  res_status (res w) = res_status (res w') →
  warnings w = warnings w' → db w = db w' → w = w'.
Proof.
  destruct w as [r [h st] l d], w' as [r' [h' st'] l' d'].
  cbn [req res res_headers res_status warnings db]. by intros -> -> -> -> ->.
Qed.

(** X16: Running [cache] a second time changes nothing, and [cache] never
    touches a header other than [Cache-Control] and [Vary]; when it answers
    [no-store] it leaves [Vary] as it found it. *)
Theorem cache_idempotent (ENV : Env) (options : CacheOptions) (w : World) :
  let once := (cache ENV options w).1 in
  (cache ENV options once).1 = once
  ∧ (∀ k, k ≠ "Cache-Control"%string → k ≠ "Vary"%string →
          res_headers (res once) !! k = res_headers (res w) !! k)
  ∧ (res_headers (res once) !! "Cache-Control"%string = Some "no-store"%string →
     res_headers (res once) !! "Vary"%string = res_headers (res w) !! "Vary"%string).
Proof.
  intros once. subst once. unfold cache.
  destruct (negb (String.eqb (method (req w)) "GET")) eqn:Hm;
    [| destruct (negb (String.eqb (NODE_ENV ENV) "production")) eqn:He];
    cbn [fst snd res_set req res warnings db res_headers res_status method];
    rewrite ?Hm, ?He; cbn [fst snd res_set req res warnings db res_headers res_status].
  - split_and!.
    + apply world_eq; try reflexivity.
      cbn [res res_headers]. apply insert_insert_eq.
    + intros k Hk _. by rewrite lookup_insert_ne.
    + intros _. by rewrite lookup_insert_ne.
  - split_and!.
    + apply world_eq; try reflexivity.
      cbn [res res_headers]. apply insert_insert_eq.
    + intros k Hk _. by rewrite lookup_insert_ne.
    + intros _. by rewrite lookup_insert_ne.
  - split_and!.
    + apply world_eq; try reflexivity.
      cbn [res res_headers res_set]. apply map_eq. intros k.
      destruct (decide (k = "Vary"%string)) as [-> | Hv];
        [by rewrite !lookup_insert_eq |].
      rewrite !(lookup_insert_ne _ "Vary"%string) by congruence.
      destruct (decide (k = "Cache-Control"%string)) as [-> | Hc];
        [by rewrite !lookup_insert_eq |].
      rewrite !(lookup_insert_ne _ "Cache-Control"%string) by congruence.
      rewrite !(lookup_insert_ne _ "Vary"%string) by congruence.
      rewrite !(lookup_insert_ne _ "Cache-Control"%string) by congruence.
      reflexivity.
    + intros k Hc Hv. by rewrite !lookup_insert_ne.
    + rewrite lookup_insert_ne by done. rewrite lookup_insert_eq.
      intros Hx. exfalso.
      assert (Hs : ("private, max-age=" +:+ pretty (default 300 (duration options)))%string
                   = "no-store"%string) by congruence.
      discriminate Hs.
Qed.

Lemma cache_idempotent_witness :
  let w := res_set (Sample.request "POST" [] None ∅) "Vary" "Accept-Encoding" in
  res_headers (res (cache Sample.env (mkCacheOptions None) w).1) !! "Vary"%string
  = Some "Accept-Encoding"%string.
Proof.
  intros w.
  destruct (cache_idempotent Sample.env (mkCacheOptions None) w) as (_ & _ & H).
  rewrite H; reflexivity.
Defined.

(** * Properties of the routers *)

Lemma dispatch_last (h : Handler) (w : World) :
  trace (dispatch [h] w) = [h_name h] ∧ final (dispatch [h] w) = (h_run h w).1.
Proof.
  cbn [dispatch]. destruct (h_run h w) as [w' [| e |]]; by split.
Qed.

Lemma dispatch_next (h : Handler) (rest : list Handler) (w w' : World) :
  h_run h w = (w', Next) →
  dispatch (h :: rest) w
  = mkRun (h_name h :: trace (dispatch rest w')) (final (dispatch rest w'))
          (ending (dispatch rest w')).
Proof. intros E. cbn [dispatch]. by rewrite E. Qed.

Lemma dispatch_error (h : Handler) (rest : list Handler) (w w' : World) (e : AppError) :
  h_run h w = (w', NextErr e) →
  dispatch (h :: rest) w = mkRun [h_name h] w' (Failed e).
Proof. intros E. cbn [dispatch]. by rewrite E. Qed.

Section RouterProperties.

Variable ENV : Env.
Variable jwt_verify : string → string → string + JwtPayload.
Variable Schema : Type.
Variables createUserSchema updateUserSchema : Schema.
Variable validateRequest : Schema → World → World * Signal.
Variables getAll getUser create_ update delete_ : World → World * Signal.

Let router := users_router ENV jwt_verify Schema createUserSchema updateUserSchema
                           validateRequest getAll getUser create_ update delete_.
Let table := route ENV Schema createUserSchema updateUserSchema
                   validateRequest getAll getUser create_ update delete_.

Lemma gate_refuses (w : World) (rest : list Handler) :
  (∀ p, ¬ verified ENV jwt_verify (req w) p) →
  ∃ w', dispatch (h_requireAuth ENV jwt_verify :: rest) w
        = mkRun ["requireAuth"%string] w' (Failed invalid_token_error)
        ∧ req w' = req w ∧ res w' = res w ∧ db w' = db w.
Proof.
  intros Hno. destruct (authenticate_unverified ENV jwt_verify (req w) Hno) as [msg E].
  by apply (requireAuth_failure ENV jwt_verify w msg).
Qed.

Lemma gate_admits (w : World) (p : JwtPayload) (rest : list Handler) :
  verified ENV jwt_verify (req w) p →
  dispatch (h_requireAuth ENV jwt_verify :: rest) w
  = mkRun ("requireAuth"%string :: trace (dispatch rest (with_user w p)))
          (final (dispatch rest (with_user w p)))
          (ending (dispatch rest (with_user w p))).
Proof.
  intros Hv. apply authenticate_iff_verified in Hv.
  apply (dispatch_next (h_requireAuth ENV jwt_verify)).
  cbn [h_requireAuth h_run]. unfold requireAuth. by rewrite Hv.
Qed.

(** X17: No route of the users router, and no path it has no route for, gets
    past the gate without a verified token: the answer is the 401 error,
    only [requireAuth] has run, and response and table are untouched. *)
Theorem users_router_requires_token (w : World) :
  (∀ p, ¬ verified ENV jwt_verify (req w) p) →
  ∃ w', router w = mkRun ["requireAuth"%string] w' (Failed invalid_token_error)
        ∧ res w' = res w ∧ db w' = db w ∧ user (req w') = user (req w).
Proof.
  intros Hno. subst router. unfold users_router.
  destruct (route _ _ _ _ _ _ _ _ _ _ (req w)) as [[ps chain]|].
  - destruct (gate_refuses (with_params w ps) chain Hno) as (w' & E & Hq & Hr & Hd).
    exists w'. split; [exact E |]. rewrite Hq. by repeat split.
  - destruct (gate_refuses w [] Hno) as (w' & E & Hq & Hr & Hd).
    exists w'. split; [exact E |]. rewrite Hq. by repeat split.
Qed.

Lemma router_verified (w : World) (p : JwtPayload) (ps : gmap string string)
      (chain : list Handler) :
  verified ENV jwt_verify (req w) p →
  table (req w) = Some (ps, chain) →
  router w
  = mkRun ("requireAuth"%string
             :: trace (dispatch chain (with_user (with_params w ps) p)))
          (final (dispatch chain (with_user (with_params w ps) p)))
          (ending (dispatch chain (with_user (with_params w ps) p))).
Proof.
  intros Hv Ht. subst router table. unfold users_router. rewrite Ht.
  by apply gate_admits.
Qed.

Lemma role_gate_refuses (roles : list UserRole) (w : World) (p : JwtPayload)
      (rest : list Handler) :
  user (req w) = Some p → role p ∉ roles →
  ∃ w', dispatch (h_requireRole roles :: rest) w
        = mkRun ["requireRole"%string] w' (Failed forbidden_error)
        ∧ req w' = req w ∧ res w' = res w ∧ db w' = db w.
Proof.
  intros Hu Hin. destruct (requireRole_not_member roles w p Hu Hin) as [record E].
  exists (logger_warn w record). split; [| by repeat split].
  by apply (dispatch_error (h_requireRole roles)).
Qed.

Lemma role_gate_admits (roles : list UserRole) (w : World) (p : JwtPayload)
      (rest : list Handler) :
  user (req w) = Some p → role p ∈ roles →
  dispatch (h_requireRole roles :: rest) w
  = mkRun ("requireRole"%string :: trace (dispatch rest w))
          (final (dispatch rest w)) (ending (dispatch rest w)).
Proof.
  intros Hu Hin. apply (dispatch_next (h_requireRole roles)).
  by apply (requireRole_member roles w p).
Qed.

(** X18: [DELETE /users/:id]: of the callers with a verified token, an OWNER
    reaches the controller, with the identity and the path [id] on the
    request; an ADMIN or a USER gets the 403 error and the controller does
    not run. *)
Theorem delete_route_owner_only (w : World) (i : string) (p : JwtPayload) :
  method (req w) = "DELETE"%string → path (req w) = [i] →
  verified ENV jwt_verify (req w) p →
  let w1 := with_user (with_params w {[ "id"%string := i ]}) p in
  (role p = OWNER →
   trace (router w) = ["requireAuth"; "requireRole"; "userController.delete"]%string
   ∧ final (router w) = (delete_ w1).1)
  ∧ (role p ≠ OWNER →
     trace (router w) = ["requireAuth"; "requireRole"]%string
     ∧ ending (router w) = Failed forbidden_error
     ∧ res (final (router w)) = res w ∧ db (final (router w)) = db w).
Proof.
  intros Hm Hp Hv w1.
  assert (Ht : table (req w)
               = Some ({[ "id"%string := i ]},
                       [ h_requireRole [OWNER];
                         mkHandler "userController.delete" delete_ ])).
  { subst table. unfold route. rewrite Hp, Hm. reflexivity. }
  rewrite (router_verified w p _ _ Hv Ht). fold w1. cbn [trace final ending].
  split.
  - intros Hr. rewrite (role_gate_admits [OWNER] w1 p); [| reflexivity |].
    + cbn [trace final]. destruct (dispatch_last (mkHandler "userController.delete" delete_) w1)
        as [Et Ef].
      rewrite Et, Ef. by split.
    + rewrite Hr. by left.
  - intros Hr. destruct (role_gate_refuses [OWNER] w1 p
                           [mkHandler "userController.delete" delete_])
      as (w' & E & _ & Hres & Hdb); [reflexivity | |].
    + intros Hin. apply list_elem_of_singleton in Hin. contradiction.
    + rewrite E. cbn [trace final ending]. by repeat split.
Qed.

(** X19: [GET /users/:id] has no role check: every caller with a verified
    token, whatever the role and whoever the [id] belongs to, reaches the
    controller, after [cache] has set its headers. *)
Theorem get_user_route_any_role (w : World) (i : string) (p : JwtPayload) :
  method (req w) = "GET"%string → path (req w) = [i] →
  verified ENV jwt_verify (req w) p →
  let w1 := with_user (with_params w {[ "id"%string := i ]}) p in
  let w2 := (cache ENV (mkCacheOptions (Some 300)) w1).1 in
  trace (router w) = ["requireAuth"; "cache"; "userController.getUser"]%string
  ∧ final (router w) = (getUser w2).1
  ∧ user (req w2) = Some p
  ∧ params (req w2) !! "id"%string = Some i
  ∧ is_Some (res_headers (res w2) !! "Cache-Control"%string).
Proof.
  intros Hm Hp Hv w1 w2.
  assert (Ht : table (req w)
               = Some ({[ "id"%string := i ]},
                       [ h_cache ENV (mkCacheOptions (Some 300));
                         mkHandler "userController.getUser" getUser ])).
  { subst table. unfold route. rewrite Hp, Hm. reflexivity. }
  rewrite (router_verified w p _ _ Hv Ht). fold w1. cbn [trace final ending].
  assert (Hc : h_run (h_cache ENV (mkCacheOptions (Some 300))) w1 = (w2, Next)).
  { subst w2. cbn [h_cache h_run]. unfold cache.
    destruct (negb _); [| destruct (negb _)]; reflexivity. }
  rewrite (dispatch_next _ _ w1 w2 Hc). cbn [trace final h_cache h_name].
  destruct (dispatch_last (mkHandler "userController.getUser" getUser) w2) as [Et Ef].
  rewrite Et, Ef.
  assert (Hreq : req w2 = req w1).
  { subst w2. unfold cache. destruct (negb _); [| destruct (negb _)]; reflexivity. }
  split_and!; try reflexivity.
  - by rewrite Hreq.
  - rewrite Hreq. subst w1. cbn [with_user with_params req params].
    apply lookup_singleton_eq.
  - subst w2. unfold cache.
    destruct (negb _); [| destruct (negb _)];
      cbn [fst res_set res res_headers].
    + rewrite lookup_insert_eq. by eexists.
    + rewrite lookup_insert_eq. by eexists.
    + rewrite lookup_insert_ne by discriminate. rewrite lookup_insert_eq. by eexists.
Qed.

End RouterProperties.

Lemma users_router_requires_token_witness :
  ending (Fixture.users Fixture.accept (Sample.request "PUT" ["u1"%string] None ∅))
  = Failed invalid_token_error.
Proof.
  unfold Fixture.users.
  edestruct users_router_requires_token as (w' & E & _); [| rewrite E; reflexivity].
  intros p (tok & Ht & _). discriminate Ht.
Defined.

Lemma delete_route_owner_only_witness :
  let run auth := Fixture.users Fixture.accept
                    (Sample.request "DELETE" ["u1"%string] (Some auth) ∅) in
  trace (run "Bearer t-o1"%string)
    = ["requireAuth"; "requireRole"; "userController.delete"]%string
  ∧ ending (run "Bearer t-u1"%string) = Failed forbidden_error.
Proof.
  intros run. subst run. cbv beta. unfold Fixture.users. split.
  - edestruct delete_route_owner_only as [Hyes _];
      [| | | destruct Hyes as [Et _]; [| exact Et]].
    + reflexivity.
    + reflexivity.
    + exists "t-o1"%string. split; [reflexivity |]. split; [discriminate | reflexivity].
    + reflexivity.
  - edestruct delete_route_owner_only as [_ Hno];
      [| | | destruct Hno as (_ & Ee & _); [| exact Ee]].
    + reflexivity.
    + reflexivity.
    + exists "t-u1"%string. split; [reflexivity |]. split; [discriminate | reflexivity].
    + discriminate.
Defined.

Lemma get_user_route_any_role_witness :
  trace (Fixture.users Fixture.accept
           (Sample.request "GET" ["o1"%string] (Some "Bearer t-u1"%string) ∅))
  = ["requireAuth"; "cache"; "userController.getUser"]%string.
Proof.
  unfold Fixture.users.
  edestruct get_user_route_any_role as [Et _]; [| | | exact Et].
  - reflexivity.
  - reflexivity.
  - exists "t-u1"%string. split; [reflexivity |]. split; [discriminate | reflexivity].
Defined.

Section MoreRoutes.

Variable ENV : Env.
Variable jwt_verify : string → string → string + JwtPayload.
Variable Schema : Type.
Variables createUserSchema updateUserSchema : Schema.
Variable validateRequest : Schema → World → World * Signal.
Variables getAll getUser create_ update delete_ : World → World * Signal.

Let router := users_router ENV jwt_verify Schema createUserSchema updateUserSchema
                           validateRequest getAll getUser create_ update delete_.
Let table := route ENV Schema createUserSchema updateUserSchema
                   validateRequest getAll getUser create_ update delete_.

Lemma not_user_admitted (p : JwtPayload) : role p ≠ USER → role p ∈ [ADMIN; OWNER].
Proof. destruct (role p); [right; left | left | done]. Qed.

Lemma user_not_admitted (p : JwtPayload) : role p = USER → role p ∉ [ADMIN; OWNER].
Proof.
  intros -> Hin.
  repeat (apply elem_of_cons in Hin as [Hin | Hin]; [discriminate Hin |]).
  by apply elem_of_nil in Hin.
Qed.

(** X20: [GET /users]: a USER with a verified token gets the 403 error, on a
    response that [cache] has not touched; an ADMIN or an OWNER reaches the
    controller after [cache] has run. *)
Theorem list_route_roles (w : World) (p : JwtPayload) :
  method (req w) = "GET"%string → path (req w) = [] →
  verified ENV jwt_verify (req w) p →
  let w1 := with_user (with_params w ∅) p in
  (role p = USER →
   trace (router w) = ["requireAuth"; "requireRole"]%string
   ∧ ending (router w) = Failed forbidden_error
   ∧ res (final (router w)) = res w ∧ db (final (router w)) = db w)
  ∧ (role p ≠ USER →
     trace (router w)
       = ["requireAuth"; "requireRole"; "cache"; "userController.getAll"]%string
     ∧ final (router w) = (getAll (cache ENV (mkCacheOptions (Some 300)) w1).1).1).
Proof.
  intros Hm Hp Hv w1.
  assert (Ht : table (req w)
               = Some (∅, [ h_requireRole [ADMIN; OWNER];
                            h_cache ENV (mkCacheOptions (Some 300));
                            mkHandler "userController.getAll" getAll ])).
  { subst table. unfold route. rewrite Hp, Hm. reflexivity. }
  subst router table.
  rewrite (router_verified ENV jwt_verify Schema createUserSchema updateUserSchema
             validateRequest getAll getUser create_ update delete_ w p _ _ Hv Ht).
  fold w1. cbn [trace final ending].
  split.
  - intros Hr.
    edestruct (role_gate_refuses [ADMIN; OWNER] w1 p) as (w' & E & _ & Hres & Hdb);
      [reflexivity | by apply user_not_admitted |].
    rewrite E. cbn [trace final ending]. by repeat split.
  - intros Hr.
    rewrite (role_gate_admits [ADMIN; OWNER] w1 p);
      [| reflexivity | by apply not_user_admitted].
    cbn [trace final].
    assert (Hc : h_run (h_cache ENV (mkCacheOptions (Some 300))) w1
                 = ((cache ENV (mkCacheOptions (Some 300)) w1).1, Next)).
    { cbn [h_cache h_run]. unfold cache.
      destruct (negb _); [| destruct (negb _)]; reflexivity. }
    rewrite (dispatch_next _ _ w1 _ Hc). cbn [trace final h_cache h_name].
    destruct (dispatch_last (mkHandler "userController.getAll" getAll)
                            (cache ENV (mkCacheOptions (Some 300)) w1).1) as [Et Ef].
    rewrite Et, Ef. by split.
Qed.

(** The chain of the two writing routes, after the gate. *)
Lemma write_chain (w1 : World) (p : JwtPayload) (s : Schema) (name : string)
      (h : World → World * Signal) :
  user (req w1) = Some p →
  let run := dispatch [ h_requireRole [ADMIN; OWNER];
                        h_validateRequest Schema validateRequest s;
                        mkHandler name h ] w1 in
  (role p = USER →
   trace run = ["requireRole"%string] ∧ ending run = Failed forbidden_error
   ∧ db (final run) = db w1)
  ∧ (role p ≠ USER →
     (∀ w2 e, validateRequest s w1 = (w2, NextErr e) →
              run = mkRun ["requireRole"; "validateRequest"]%string w2 (Failed e))
     ∧ (∀ w2, validateRequest s w1 = (w2, Next) →
              trace run = ["requireRole"; "validateRequest"; name]%string
              ∧ final run = (h w2).1)).
Proof.
  intros Hu run. subst run. split.
  - intros Hr.
    edestruct (role_gate_refuses [ADMIN; OWNER] w1 p) as (w' & E & _ & _ & Hdb);
      [exact Hu | by apply user_not_admitted |].
    rewrite E. cbn [trace final ending]. by repeat split.
  - intros Hr.
    rewrite (role_gate_admits [ADMIN; OWNER] w1 p _ Hu (not_user_admitted p Hr)).
    split.
    + intros w2 e Hval.
      rewrite (dispatch_error (h_validateRequest Schema validateRequest s) _ w1 w2 e Hval).
      reflexivity.
    + intros w2 Hval.
      rewrite (dispatch_next (h_validateRequest Schema validateRequest s) _ w1 w2 Hval).
      cbn [trace final h_validateRequest h_name].
      destruct (dispatch_last (mkHandler name h) w2) as [Et Ef].
      rewrite Et, Ef. by split.
Qed.

(** X21: [POST /users] and [PATCH /users/:id]: a USER with a verified token is
    refused with 403 before the body is validated; for an ADMIN or an OWNER
    the validator runs first, and the controller runs only if the validator
    calls [next()]: an error the validator passes on ends the request. *)
Theorem write_routes_order (w : World) (p : JwtPayload) :
  verified ENV jwt_verify (req w) p →
  let outcome (w1 : World) (s : Schema) (name : string) (h : World → World * Signal) :=
    (role p = USER →
     trace (router w) = ["requireAuth"; "requireRole"]%string
     ∧ ending (router w) = Failed forbidden_error
     ∧ db (final (router w)) = db w)
    ∧ (role p ≠ USER →
       (∀ w2 e, validateRequest s w1 = (w2, NextErr e) →
                router w
                = mkRun ["requireAuth"; "requireRole"; "validateRequest"]%string
                        w2 (Failed e))
       ∧ (∀ w2, validateRequest s w1 = (w2, Next) →
                trace (router w)
                  = ["requireAuth"; "requireRole"; "validateRequest"; name]%string
                ∧ final (router w) = (h w2).1)) in
  (method (req w) = "POST"%string → path (req w) = [] →
   outcome (with_user (with_params w ∅) p) createUserSchema
           "userController.create"%string create_)
  ∧ (∀ i, method (req w) = "PATCH"%string → path (req w) = [i] →
          outcome (with_user (with_params w {[ "id"%string := i ]}) p)
                  updateUserSchema "userController.update"%string update).
Proof.
  intros Hv outcome. subst outcome. cbv beta.
  assert (Hgen : ∀ ps s name h,
            table (req w) = Some (ps, [ h_requireRole [ADMIN; OWNER];
                                        h_validateRequest Schema validateRequest s;
                                        mkHandler name h ]) →
            (role p = USER →
             trace (router w) = ["requireAuth"; "requireRole"]%string
             ∧ ending (router w) = Failed forbidden_error
             ∧ db (final (router w)) = db w)
            ∧ (role p ≠ USER →
               (∀ w2 e, validateRequest s (with_user (with_params w ps) p)
                        = (w2, NextErr e) →
                        router w
                        = mkRun ["requireAuth"; "requireRole"; "validateRequest"]%string
                                w2 (Failed e))
               ∧ (∀ w2, validateRequest s (with_user (with_params w ps) p) = (w2, Next) →
                        trace (router w)
                          = ["requireAuth"; "requireRole"; "validateRequest"; name]%string
                        ∧ final (router w) = (h w2).1))).
  { intros ps s name h Ht. subst router table.
    rewrite (router_verified ENV jwt_verify Schema createUserSchema updateUserSchema
               validateRequest getAll getUser create_ update delete_ w p _ _ Hv Ht).
    cbn [trace final ending].
    destruct (write_chain (with_user (with_params w ps) p) p s name h eq_refl)
      as [Huser Hother].
    split.
    - intros Hr. destruct (Huser Hr) as (Et & Ee & Hdb).
      rewrite Et, Ee, Hdb. by repeat split.
    - intros Hr. destruct (Hother Hr) as [Hbad Hgood]. split.
      + intros w2 e Hval. rewrite (Hbad w2 e Hval). reflexivity.
      + intros w2 Hval. destruct (Hgood w2 Hval) as [Et Ef].
        rewrite Et, Ef. by split. }
  split.
  - intros Hm Hp. apply Hgen. subst table. unfold route. rewrite Hp, Hm. reflexivity.
  - intros i Hm Hp. apply Hgen. subst table. unfold route. rewrite Hp, Hm. reflexivity.
Qed.

End MoreRoutes.

Lemma list_route_roles_witness :
  let run auth := Fixture.users Fixture.accept (Sample.request "GET" [] (Some auth) ∅) in
  ending (run "Bearer t-u1"%string) = Failed forbidden_error
  ∧ trace (run "Bearer t-o1"%string)
    = ["requireAuth"; "requireRole"; "cache"; "userController.getAll"]%string.
Proof.
  intros run. subst run. cbv beta. unfold Fixture.users. split.
  - edestruct list_route_roles as [Hno _];
      [| | | destruct Hno as (_ & Ee & _); [| exact Ee]].
    + reflexivity.
    + reflexivity.
    + exists "t-u1"%string. split; [reflexivity |]. split; [discriminate | reflexivity].
    + reflexivity.
  - edestruct list_route_roles as [_ Hyes];
      [| | | destruct Hyes as (Et & _); [| exact Et]].
    + reflexivity.
    + reflexivity.
    + exists "t-o1"%string. split; [reflexivity |]. split; [discriminate | reflexivity].
    + discriminate.
Defined.

Lemma write_routes_order_witness :
  Fixture.users Fixture.reject
    (Sample.request "POST" [] (Some "Bearer t-o1"%string) ∅)
  = mkRun ["requireAuth"; "requireRole"; "validateRequest"]%string
          (with_user (Sample.request "POST" [] (Some "Bearer t-o1"%string) ∅)
                     (mkPayload "o1" "cA" OWNER))
          (Failed (mkAppError "Validation failed" 400 None)).
Proof.
  unfold Fixture.users.
  edestruct write_routes_order as [Hpost _];
    [| destruct Hpost as [_ Hother];
       [| | destruct Hother as [Hbad _]; [| apply Hbad]]].
  - exists "t-o1"%string. split; [reflexivity |]. split; [discriminate | reflexivity].
  - reflexivity.
  - reflexivity.
  - discriminate.
  - reflexivity.
Defined.

(** ** The audit router and the auth router *)


Section AuditAndAuth.

Variable ENV : Env.
Variable jwt_verify : string → string → string + JwtPayload.
Variable getAuditLogs : World → World * Signal.

(** X22: [GET /audit]: without a verified token the answer is the 401 error and
    the controller does not run; with one, whatever the role, the
    controller runs with the identity on the request.  The gate belongs to
    that route alone: for any other path, and any other method (HEAD, which
    the framework serves through the GET routes, set aside), nothing runs,
    not even the gate. *)
Theorem audit_router_gate (w : World) :
  let run := audit_router ENV jwt_verify getAuditLogs w in
  (method (req w) = "GET"%string → path (req w) = [] →
   ((∀ p, ¬ verified ENV jwt_verify (req w) p) →
    trace run = ["requireAuth"%string] ∧ ending run = Failed invalid_token_error
    ∧ res (final run) = res w ∧ db (final run) = db w)
   ∧ (∀ p, verified ENV jwt_verify (req w) p →
           trace run = ["requireAuth"; "auditController.getAuditLogs"]%string
           ∧ final run = (getAuditLogs (with_user (with_params w ∅) p)).1))
  ∧ (method (req w) ≠ "HEAD"%string →
     method (req w) ≠ "GET"%string ∨ path (req w) ≠ [] →
     run = mkRun [] w Unhandled).
Proof.
  intros run. subst run. unfold audit_router, audit_route. split.
  - intros Hm Hp. rewrite Hp, Hm. cbn [String.eqb Ascii.eqb Bool.eqb].
    change (String.eqb "GET" "GET") with true. cbv iota. split.
    + intros Hno.
      destruct (gate_refuses ENV jwt_verify (with_params w ∅)
                  [mkHandler "auditController.getAuditLogs" getAuditLogs] Hno)
        as (w' & E & _ & Hres & Hdb).
      rewrite E. cbn [trace final ending]. by repeat split.
    + intros p Hv.
      rewrite (gate_admits ENV jwt_verify (with_params w ∅) p _ Hv).
      cbn [trace final].
      destruct (dispatch_last (mkHandler "auditController.getAuditLogs" getAuditLogs)
                              (with_user (with_params w ∅) p)) as [Et Ef].
      rewrite Et, Ef. by split.
  - intros _ Hne. destruct (path (req w)) as [|seg rest]; [| reflexivity].
    destruct (String.eqb_spec (method (req w)) "GET") as [Hm | Hm]; [| reflexivity].
    by destruct Hne.
Qed.

Variable Schema : Type.
Variable validateRequest : Schema → World → World * Signal.
Variables loginSchema registerSchema refreshTokenSchema verifyEmailSchema
          forgotPasswordSchema resetPasswordSchema : Schema.
Variables register login refresh me logout verifyEmail forgotPassword resetPassword
  : World → World * Signal.

Let auth := auth_router ENV jwt_verify Schema validateRequest
                        loginSchema registerSchema refreshTokenSchema verifyEmailSchema
                        forgotPasswordSchema resetPasswordSchema
                        register login refresh me logout verifyEmail forgotPassword
                        resetPassword.

(** X23: [GET /auth/me] and [POST /auth/logout], in any case of the letters
    of the path: without a verified token the answer is the 401 error and
    the controller does not run; with one, the controller runs with the
    identity on the request. *)
Theorem auth_router_protected (w : World) :
  auth_protected (req w) →
  ((∀ p, ¬ verified ENV jwt_verify (req w) p) →
   trace (auth w) = ["requireAuth"%string]
   ∧ ending (auth w) = Failed invalid_token_error
   ∧ db (final (auth w)) = db w)
  ∧ (∀ p, verified ENV jwt_verify (req w) p →
          ∃ name h, (name, h) ∈ [ ("authController.me"%string, me);
                                  ("authController.logout"%string, logout) ]
                    ∧ trace (auth w) = ["requireAuth"%string; name]
                    ∧ final (auth w) = (h (with_user (with_params w ∅) p)).1).
Proof.
  intros Hprot. subst auth. unfold auth_router.
  assert (Hr : ∃ name h,
             (name, h) ∈ [ ("authController.me"%string, me);
                           ("authController.logout"%string, logout) ]
             ∧ auth_route ENV jwt_verify Schema validateRequest
                 loginSchema registerSchema refreshTokenSchema verifyEmailSchema
                 forgotPasswordSchema resetPasswordSchema
                 register login refresh me logout verifyEmail forgotPassword
                 resetPassword (req w)
               = Some (∅, [h_requireAuth ENV jwt_verify; mkHandler name h])).
  { destruct Hprot as (seg & Hp & [[Hm Hs] | [Hm Hs]]);
      unfold auth_route; rewrite Hp, Hm, Hs.
    - exists "authController.me"%string, me. split; [left | reflexivity].
    - exists "authController.logout"%string, logout.
      split; [right; left | reflexivity]. }
  destruct Hr as (name & h & Hin & Er). rewrite Er. split.
  - intros Hno.
    destruct (gate_refuses ENV jwt_verify (with_params w ∅) [mkHandler name h] Hno)
      as (w' & E & _ & _ & Hdb).
    rewrite E. cbn [trace final ending]. by repeat split.
  - intros p Hv. exists name, h. split; [exact Hin |].
    rewrite (gate_admits ENV jwt_verify (with_params w ∅) p _ Hv).
    cbn [trace final].
    destruct (dispatch_last (mkHandler name h) (with_user (with_params w ∅) p))
      as [Et Ef].
    rewrite Et, Ef. by split.
Qed.

End AuditAndAuth.


Section PublicRoutes.

Variables ENV ENV' : Env.
Variables jwt_verify jwt_verify' : string → string → string + JwtPayload.
Variable Schema : Type.
Variable validateRequest : Schema → World → World * Signal.
Variables loginSchema registerSchema refreshTokenSchema verifyEmailSchema
          forgotPasswordSchema resetPasswordSchema : Schema.
Variables register login refresh me logout verifyEmail forgotPassword resetPassword
  : World → World * Signal.

Let auth (E : Env) (v : string → string → string + JwtPayload) :=
  auth_router E v Schema validateRequest
              loginSchema registerSchema refreshTokenSchema verifyEmailSchema
              forgotPasswordSchema resetPasswordSchema
              register login refresh me logout verifyEmail forgotPassword
              resetPassword.


End PublicRoutes.

Lemma audit_router_gate_witness :
  trace (Fixture.audit (Sample.request "GET" [] (Some "Bearer t-u1"%string) ∅))
    = ["requireAuth"; "auditController.getAuditLogs"]%string
  ∧ ending (Fixture.audit (Sample.request "GET" [] None ∅))
    = Failed invalid_token_error
  ∧ trace (Fixture.audit (Sample.request "POST" [] None ∅)) = [].
Proof.
  unfold Fixture.audit. split_and!.
  - destruct (audit_router_gate Sample.env Sample.verify Fixture.answer
                (Sample.request "GET" [] (Some "Bearer t-u1"%string) ∅)) as [Hget _].
    destruct Hget as [_ Hyes]; [reflexivity | reflexivity |].
    destruct (Hyes (mkPayload "u1" "cA" USER)) as [Et _]; [| exact Et].
    exists "t-u1"%string. split; [reflexivity |]. split; [discriminate | reflexivity].
  - destruct (audit_router_gate Sample.env Sample.verify Fixture.answer
                (Sample.request "GET" [] None ∅)) as [Hget _].
    destruct Hget as [Hno _]; [reflexivity | reflexivity |].
    destruct Hno as (_ & Ee & _); [| exact Ee].
    intros p (tok & Ht & _). discriminate Ht.
  - destruct (audit_router_gate Sample.env Sample.verify Fixture.answer
                (Sample.request "POST" [] None ∅)) as [_ Hother].
    rewrite Hother; [reflexivity | discriminate |]. left. discriminate.
Defined.

Lemma auth_router_protected_witness :
  ending (Fixture.auth Sample.verify Fixture.accept
            (Sample.request "POST" ["LogOut"%string] None ∅))
  = Failed invalid_token_error.
Proof.
  unfold Fixture.auth.
  edestruct auth_router_protected as [Hno _];
    [| destruct Hno as (_ & Ee & _); [| exact Ee]].
  - exists "LogOut"%string. split; [reflexivity |]. right. split; reflexivity.
  - intros p (tok & Ht & _). discriminate Ht.
Defined.

